(** * calc_ipmi_energy: minute regularisation, gap accounting and energy

    A shallow embedding of [monitor/calc_ipmi_energy.py] and the properties
    its specification states about it.

    Conventions of the embedding.
    - A pandas [Timestamp] is the instant it denotes, in nanoseconds since
      the epoch ([Z]); [NaT] is [None].  Converting to another time zone
      does not change the instant; zones are taken to have whole-minute
      offsets, so flooring to the minute commutes with the conversion.
    - A float64 cell is an exact rational ([Q]), [NaN] is [None]; rounding
      of binary floating point is outside the model.
    - Python integers are [Z]; list positions, which only count up from 0,
      are [nat].
    - A raised exception is a value of [exn]. *)

From Stdlib Require Import ZArith QArith Qround Lia.
From stdpp Require Import base option list gmap strings sorting.

Local Open Scope Z_scope.

(** ** Exceptions and the error monad *)

Inductive exn : Type :=
  | MissingTimeColumn      (* ValueError: Missing time column ... *)
  | NoOtherColumns         (* ValueError: No columns available besides the time column *)
  | AutoDetectFailed       (* ValueError: Unable to auto-detect a numeric power column *)
  | MissingPowerColumn     (* ValueError: Missing power column ... *)
  | AllTimestampsFailed    (* ValueError: All timestamps failed to parse *)
  | NoValidRows            (* ValueError: No valid rows after parsing ... *)
  | NoDataLeft             (* ValueError: No data left after applying the fill policy *)
  | DateRangeNaT           (* ValueError of date_range on NaT bounds *)
  | KeyError               (* column lookup on a frame that lacks it *)
  | IndexError             (* positional lookup out of range *)
  | DanglingRef            (* a frame reference with no object behind it *)
  | LoopFuel.              (* not a Python exception: a while loop outran its bound *)

Inductive result (A : Type) : Type :=
  | Ok (a : A)
  | Raise (e : exn).
Arguments Ok {A} a.
Arguments Raise {A} e.

#[export] Instance result_ret : MRet result := fun _ a => Ok a.
#[export] Instance result_bind : MBind result := fun _ _ f r =>
  match r with Ok a => f a | Raise e => Raise e end.

(** ** Time *)

Abbreviation Timestamp := Z (only parsing).

(** One minute, in nanoseconds. *)
Definition minute : Z := 60000000000.

(** [Series.dt.floor("min")] on one timestamp. *)
Definition floor_min (t : Timestamp) : Timestamp := t / minute * minute.

(** ** Series *)

(** A float Series: index label and value, [None] for NaN. *)
Abbreviation Series := (list (Z * option Q)) (only parsing).

Definition index (s : Series) : list Timestamp := s.*1.
Definition values (s : Series) : list (option Q) := s.*2.

Definition isna {A} (v : option A) : bool :=
  match v with None => true | Some _ => false end.

(** ** build_gap_report *)

(** A gap as the code stores it: (start, end, minutes). *)
Abbreviation Gap := (Z * Z * Z)%type (only parsing).

Definition gap_start (g : Gap) : Timestamp := g.1.1.
Definition gap_end (g : Gap) : Timestamp := g.1.2.
Definition gap_len (g : Gap) : Z := g.2.

Record GapReport : Type := mkGapReport {
  gap_count : Z;
  minutes_missing : Z;
  missing_pct : Q;
  bucket_counts : gmap string Z;
  bucket_minutes : gmap string Z;
  largest_gaps : list Gap
}.

(** [full_idx[i]] for a position [i >= 0]. *)
Definition getitem_pos (full_idx : list Timestamp) (i : nat) : result Timestamp :=
  match full_idx !! i with
  | Some t => Ok t
  | None => Raise IndexError
  end.

(** [j < len(mm) and mm[j]] *)
Definition in_run (mm : list bool) (j : nat) : bool :=
  (j <? length mm)%nat && default false (mm !! j).

(** [while j < len(mm) and mm[j]: j += 1] *)
Fixpoint inner_while (fuel : nat) (mm : list bool) (j : nat) : result nat :=
  if in_run mm j then
    match fuel with
    | O => Raise LoopFuel
    | S fuel' => inner_while fuel' mm (S j)
    end
  else Ok j.

(** [while i < len(mm): ...], with the list of gaps appended so far. *)
Fixpoint outer_while (fuel : nat) (mm : list bool) (full_idx : list Timestamp)
    (i : nat) (gaps : list Gap) : result (list Gap) :=
  if (i <? length mm)%nat then
    match fuel with
    | O => Raise LoopFuel
    | S fuel' =>
        if default false (mm !! i) then
          j ← inner_while (length mm) mm i;
          s ← getitem_pos full_idx i;
          e ← getitem_pos full_idx (j - 1);
          outer_while fuel' mm full_idx j (gaps ++ [(s, e, Z.of_nat (j - i))])
        else outer_while fuel' mm full_idx (S i) gaps
    end
  else Ok gaps.

Definition find_gaps (mm : list bool) (full_idx : list Timestamp) : result (list Gap) :=
  outer_while (length mm) mm full_idx 0 [].

Definition buckets : list (string * Z * Z) :=
  [ ("1-2"%string, 1, 2);
    ("3-15"%string, 3, 15);
    ("16-120"%string, 16, 120);
    (">120"%string, 121, 10 ^ 9) ].

(** [{k: 0 for k, _, _ in buckets}] *)
Definition zero_buckets : gmap string Z :=
  list_to_map ((fun b : string * Z * Z => (b.1.1, 0)) <$> buckets).

(** The inner [for k, a, b in buckets] with its [break]; the state is the
    pair (bucket_counts, bucket_minutes). *)
Fixpoint bucket_gap (bs : list (string * Z * Z)) (len : Z)
    (st : gmap string Z * gmap string Z) : gmap string Z * gmap string Z :=
  match bs with
  | [] => st
  | (k, a, b) :: bs' =>
      if (a <=? len) && (len <=? b)
      then (alter (Z.add 1) k st.1, alter (Z.add len) k st.2)
      else bucket_gap bs' len st
  end.

(** [for _, __, length in gaps: ...] *)
Definition bucket_all (gaps : list Gap) : gmap string Z * gmap string Z :=
  foldl (fun st g => bucket_gap buckets (gap_len g) st) (zero_buckets, zero_buckets) gaps.

(** [sorted(gaps, key=lambda x: x[2], reverse=True)]: Python's sort is
    stable, also with [reverse=True]; an element moves in front of the
    first later element whose key is not larger. *)
Fixpoint insert_desc (x : Gap) (l : list Gap) : list Gap :=
  match l with
  | [] => [x]
  | y :: l' => if gap_len y <=? gap_len x then x :: l else y :: insert_desc x l'
  end.

Definition sorted_desc (gaps : list Gap) : list Gap := foldr insert_desc [] gaps.

(** [l[:n]] for a Python integer [n], negative included. *)
Definition slice_to {A} (n : Z) (l : list A) : list A :=
  if 0 <=? n then take (Z.to_nat n) l
  else take (length l - Z.to_nat (- n)) l.

Definition count_true (mm : list bool) : Z := Z.of_nat (length (filter (fun b => b = true) mm)).

Definition build_gap_report (full_idx : list Timestamp) (series : Series) (top_n : Z)
    : result GapReport :=
  let missing_mask := isna <$> values series in
  let minutes_total := Z.of_nat (length full_idx) in
  let minutes_missing := count_true missing_mask in
  let missing_pct :=
    if minutes_total =? 0 then 0%Q
    else (inject_Z minutes_missing / inject_Z minutes_total * 100)%Q in
  gaps ← find_gaps missing_mask full_idx;
  let bk := bucket_all gaps in
  let gaps_sorted := slice_to top_n (sorted_desc gaps) in
  mret {| gap_count := Z.of_nat (length gaps);
          minutes_missing := minutes_missing;
          missing_pct := missing_pct;
          bucket_counts := bk.1;
          bucket_minutes := bk.2;
          largest_gaps := gaps_sorted |}.

(** ** Timeline *)

(** [pd.date_range(start, end, freq="1min")]: start, start + 1min, ... up to
    the last such instant not after [end]. *)
Definition date_range (start end_ : Timestamp) : list Timestamp :=
  (fun k : nat => start + Z.of_nat k * minute) <$> seq 0 (Z.to_nat ((end_ - start) / minute + 1)).

(** [per_min.reindex(full_idx)]: the value of each label of [full_idx], NaN
    for a label the series does not have. *)
Definition series_get (s : Series) (t : Timestamp) : option Q :=
  match list_find (fun p : Timestamp * option Q => p.1 = t) s with
  | Some (_, (_, v)) => v
  | None => None
  end.

Definition reindex (s : Series) (full_idx : list Timestamp) : Series :=
  (fun t => (t, series_get s t)) <$> full_idx.

(** ** Fill policies *)

(** [Series.ffill()], carrying the last value seen. *)
Fixpoint ffill_from (last : option Q) (s : Series) : Series :=
  match s with
  | [] => []
  | (t, v) :: s' =>
      let v' := match v with Some x => Some x | None => last end in
      (t, v') :: ffill_from v' s'
  end.

Definition ffill (s : Series) : Series := ffill_from None s.

(** The next entry that holds a value. *)
Fixpoint next_valid (s : Series) : option (Timestamp * Q) :=
  match s with
  | [] => None
  | (t, Some v) :: _ => Some (t, v)
  | (_, None) :: s' => next_valid s'
  end.

(** [Series.interpolate(method="time")] with pandas' defaults: a NaN between
    two values lies on the line through them, drawn over the index; NaNs
    after the last value repeat it; NaNs before the first value stay. *)
Fixpoint interpolate_from (prev : option (Timestamp * Q)) (s : Series) : Series :=
  match s with
  | [] => []
  | (t, Some v) :: s' => (t, Some v) :: interpolate_from (Some (t, v)) s'
  | (t, None) :: s' =>
      let v' :=
        match prev with
        | None => None
        | Some (ta, va) =>
            match next_valid s' with
            | None => Some va
            | Some (tb, vb) =>
                Some (va + (vb - va) * (inject_Z (t - ta) / inject_Z (tb - ta)))%Q
            end
        end in
      (t, v') :: interpolate_from prev s'
  end.

Definition interpolate_time (s : Series) : Series := interpolate_from None s.

(** [Series.dropna()] *)
Definition dropna_series (s : Series) : Series :=
  filter (fun p : Timestamp * option Q => isna p.2 = false) s.

(** ** Energy *)

(** [filled / c] *)
Definition series_div (s : Series) (c : Q) : Series :=
  (fun p : Timestamp * option Q => (p.1, (fun x => x / c)%Q <$> p.2)) <$> s.

(** [Series.sum()], which skips NaN. *)
Definition series_sum (s : Series) : Q :=
  foldl (fun acc v => match v with Some x => (acc + x)%Q | None => acc end) 0%Q (values s).

(** [Series.count()]: the number of values that are not NaN. *)
Definition series_count (s : Series) : Z :=
  Z.of_nat (length (dropna_series s)).

(** [Series.mean()]: NaN when no value is left. *)
Definition series_mean (s : Series) : option Q :=
  if series_count s =? 0 then None
  else Some (series_sum s / inject_Z (series_count s))%Q.

Definition total_kwh_of (filled : Series) : Q := series_sum (series_div filled 60000).

(** ** Frames *)

(** A cell of a frame: a CSV field as read, given by what the two coercing
    parsers ([to_datetime], [to_numeric] with errors="coerce") make of it, or
    a datetime64 or float64 value of a computed column. *)
Inductive Cell : Type :=
  | Text (as_time : option Timestamp) (as_num : option Q)
  | Time (t : option Timestamp)
  | Float (v : option Q).

(** [pd.to_datetime(_, utc=True, errors="coerce")] on one cell; a number
    counts nanoseconds since the epoch. *)
Definition to_datetime (c : Cell) : option Timestamp :=
  match c with
  | Text t _ => t
  | Time t => t
  | Float v => Qfloor <$> v
  end.

(** [pd.to_numeric(_, errors="coerce")] on one cell; a datetime gives its
    nanosecond count. *)
Definition to_numeric (c : Cell) : option Q :=
  match c with
  | Text _ n => n
  | Time t => inject_Z <$> t
  | Float v => v
  end.

Definition cell_isna (c : Cell) : bool :=
  match c with
  | Text _ _ => false
  | Time t => isna t
  | Float v => isna v
  end.

(** The value of a datetime64 cell, of a float64 cell. *)
Definition time_of (c : Cell) : option Timestamp :=
  match c with Time t => t | _ => None end.
Definition float_of (c : Cell) : option Q :=
  match c with Float v => v | _ => None end.

(** A frame, column by column, in column order; every column has one cell
    per row. *)
Abbreviation DataFrame := (list (string * list Cell)) (only parsing).

Definition columns (df : DataFrame) : list string := df.*1.

Definition nrows (df : DataFrame) : nat :=
  match df with
  | [] => O
  | (_, cells) :: _ => length cells
  end.

(** [df[c]] *)
Definition getitem (df : DataFrame) (c : string) : result (list Cell) :=
  match list_find (fun p : string * list Cell => p.1 = c) df with
  | Some (_, (_, cells)) => Ok cells
  | None => Raise KeyError
  end.

(** [df[c] = cells]: replaces the column in place, or appends a new one. *)
Fixpoint setitem (df : DataFrame) (c : string) (cells : list Cell) : DataFrame :=
  match df with
  | [] => [(c, cells)]
  | (c', old) :: df' =>
      if bool_decide (c' = c) then (c', cells) :: df'
      else (c', old) :: setitem df' c cells
  end.

(** The rows at the given positions, in that order. *)
Definition take_rows (rows : list nat) (df : DataFrame) : DataFrame :=
  (fun p : string * list Cell => (p.1, omap (fun i => p.2 !! i) rows)) <$> df.

(** [row i] has a value in every column of [subset]. *)
Definition row_complete (df : DataFrame) (subset : list string) (i : nat) : bool :=
  forallb (fun c =>
    match getitem df c with
    | Ok cells => match cells !! i with Some x => negb (cell_isna x) | None => false end
    | Raise _ => false
    end) subset.

(** [df.dropna(subset=...)] *)
Definition dropna (df : DataFrame) (subset : list string) : DataFrame :=
  take_rows (filter (fun i => row_complete df subset i = true) (seq 0 (nrows df))) df.

(** Row positions sorted by a datetime key, ascending; rows with equal keys
    keep their order (pandas leaves the order of ties open). *)
Fixpoint insert_row (key : nat -> Z) (i : nat) (l : list nat) : list nat :=
  match l with
  | [] => [i]
  | j :: l' => if key i <=? key j then i :: l else j :: insert_row key i l'
  end.

(** [df.sort_values(c)] for a datetime column without NaT. *)
Definition sort_values (df : DataFrame) (c : string) : DataFrame :=
  match getitem df c with
  | Ok cells =>
      let key i := default 0 (cells !! i ≫= time_of) in
      take_rows (foldr (insert_row key) [] (seq 0 (nrows df))) df
  | Raise _ => df
  end.

(** [df.empty] *)
Definition empty (df : DataFrame) : bool :=
  bool_decide (df = []) || (nrows df =? 0)%nat.

(** ** Bucketizer: groupby and mean *)

(** The groups of [groupby], kept in ascending key order; a row joins the
    group of its key at the end. *)
Fixpoint group_insert (k : Timestamp) (v : option Q)
    (gs : list (Timestamp * list (option Q))) : list (Timestamp * list (option Q)) :=
  match gs with
  | [] => [(k, [v])]
  | (k', vs) :: gs' =>
      if k <? k' then (k, [v]) :: gs
      else if k =? k' then (k', vs ++ [v]) :: gs'
      else (k', vs) :: group_insert k v gs'
  end.

(** [df.groupby(key)[val]]: rows whose key is NaT belong to no group. *)
Definition groupby (keys : list (option Timestamp)) (vals : list (option Q))
    : list (Timestamp * list (option Q)) :=
  foldl (fun gs kv =>
           match kv.1 with
           | Some k => group_insert k kv.2 gs
           | None => gs
           end) [] (zip keys vals).

(** [.mean()] of every group (then [.sort_index()], which finds the keys in
    order already). *)
Definition groupby_mean (keys : list (option Timestamp)) (vals : list (option Q)) : Series :=
  (fun g : Timestamp * list (option Q) =>
     (g.1, series_mean ((fun v => (g.1, v)) <$> g.2))) <$> groupby keys vals.

(** [Index.min()], [Index.max()]: NaT on an empty index. *)
Definition index_min (idx : list Timestamp) : option Timestamp :=
  match idx with
  | [] => None
  | t :: idx' => Some (foldl Z.min t idx')
  end.

Definition index_max (idx : list Timestamp) : option Timestamp :=
  match idx with
  | [] => None
  | t :: idx' => Some (foldl Z.max t idx')
  end.

(** ** detect_power_col *)

Definition PREFERRED_POWER_COLS : list string :=
  [ "watt"; "watts"; "power"; "pwr"; "power_w"; "ipmi_watts"; "kwh"; "kw" ]%string.

Definition EXCLUDE_COLS : list string :=
  [ "ipmi_ip"; "host"; "hostname"; "node"; "machine"; "serial"; "model";
    "site"; "rack"; "row" ]%string.

(** [str.lower()], on the ASCII letters. *)
Definition lower_ascii (a : Ascii.ascii) : Ascii.ascii :=
  let n := Ascii.nat_of_ascii a in
  if (65 <=? n)%nat && (n <=? 90)%nat then Ascii.ascii_of_nat (n + 32) else a.

Fixpoint lower (s : string) : string :=
  match s with
  | EmptyString => EmptyString
  | String a s' => String (lower_ascii a) (lower s')
  end.

(** Python's order on the tuples [(non_na, c)]. *)
Definition candidate_lt (x y : Z * string) : bool :=
  (x.1 <? y.1) || ((x.1 =? y.1) && String.ltb x.2 y.2).

(** [candidates.sort(reverse=True); candidates[0]]: the largest tuple. *)
Definition best_candidate (x : Z * string) (l : list (Z * string)) : Z * string :=
  foldl (fun best y => if candidate_lt best y then y else best) x l.

Definition detect_power_col (df : DataFrame) (timecol : string) : result string :=
  let cols := filter (fun c => c ≠ timecol) (columns df) in
  if bool_decide (cols = []) then Raise NoOtherColumns else
  (* 1) exact match on preferred names (case-insensitive) *)
  match omap (fun pref => head (filter (fun c => lower c = pref) cols)) PREFERRED_POWER_COLS with
  | c :: _ => Ok c
  | [] =>
      (* 2) first "mostly numeric" column excluding obvious metadata *)
      let candidates :=
        omap (fun c =>
                if bool_decide (lower c ∈ EXCLUDE_COLS) then None
                else
                  match getitem df c with
                  | Ok cells =>
                      let non_na :=
                        Z.of_nat (length (filter (fun x => isna (to_numeric x) = false) cells)) in
                      if non_na =? 0 then None else Some (non_na, c)
                  | Raise _ => None
                  end) cols in
      match candidates with
      | [] => Raise AutoDetectFailed
      | x :: l => Ok (best_candidate x l).2
      end
  end.

(** ** The object store *)

(** Frames are objects: a variable holds a reference, and [df[c] = ...]
    changes the object every holder of the reference sees. *)
Abbreviation loc := nat (only parsing).
Abbreviation heap := (gmap nat (list (string * list Cell))) (only parsing).

(** A step of the program: it may raise, and it leaves a store either way. *)
Definition M (A : Type) : Type := heap → result A * heap.

#[export] Instance M_ret : MRet M := fun _ a h => (Ok a, h).
#[export] Instance M_bind : MBind M := fun _ _ f m h =>
  match m h with
  | (Ok a, h') => f a h'
  | (Raise e, h') => (Raise e, h')
  end.

Definition raise {A} (e : exn) : M A := fun h => (Raise e, h).

Definition lift {A} (r : result A) : M A := fun h => (r, h).

(** Reading the object behind a reference. *)
Definition load (l : loc) : M DataFrame := fun h =>
  match h !! l with
  | Some df => (Ok df, h)
  | None => (Raise DanglingRef, h)
  end.

(** A new object. *)
Definition alloc (df : DataFrame) : M loc := fun h =>
  let l := fresh (dom h) in (Ok l, <[l := df]> h).

(** [df.copy()] *)
Definition copy (l : loc) : M loc := df ← load l; alloc df.

(** [df[c] = cells], in place. *)
Definition store_column (l : loc) (c : string) (cells : list Cell) : M unit := fun h =>
  match h !! l with
  | Some df => (Ok tt, <[l := setitem df c cells]> h)
  | None => (Raise DanglingRef, h)
  end.

(** ** compute_energy *)

Record Result : Type := mkResult {
  start : Timestamp;
  end_ : Timestamp;
  minutes_total : Z;
  powercol : string;
  avg_watts : option Q;
  total_kwh : Q;
  gap_report : GapReport
}.

(** [Series.dt.tz_convert(tz)]: the same instants. *)
Definition tz_convert (tz : string) (t : option Timestamp) : option Timestamp := t.

(** The fill step. *)
Definition fill_series (fill : string) (series : Series) : Series :=
  if bool_decide (fill = "locf"%string) then ffill series
  else if bool_decide (fill = "interp"%string) then ffill (interpolate_time series)
  else dropna_series series.

(** From the per-minute series on: the part of [compute_energy] that touches
    no frame. *)
Definition integrate (per_min : Series) (powercol : string) (fill : string) (top_gaps : Z)
    : result Result :=
  match index_min (index per_min), index_max (index per_min) with
  | Some start, Some end_ =>
      let full_idx := date_range start end_ in
      let series := reindex per_min full_idx in
      gap_report ← build_gap_report full_idx series top_gaps;
      let filled := fill_series fill series in
      if bool_decide (filled = []) then Raise NoDataLeft else
      mret {| start := start;
              end_ := end_;
              minutes_total := Z.of_nat (length full_idx);
              powercol := powercol;
              avg_watts := series_mean filled;
              total_kwh := total_kwh_of filled;
              gap_report := gap_report |}
  | _, _ => Raise DateRangeNaT
  end.

Definition compute_energy (df : loc) (timecol : string) (powercol : option string)
    (fill : string) (tz : string) (top_gaps : Z) : M Result :=
  frame ← load df;
  if bool_decide (timecol ∉ columns frame) then raise MissingTimeColumn else
  powercol ← lift
    match powercol with
    | None => detect_power_col frame timecol
    | Some c => if bool_decide (c ∉ columns frame) then Raise MissingPowerColumn else Ok c
    end;
  (* Parse timestamps *)
  tcells ← lift (getitem frame timecol);
  let t := to_datetime <$> tcells in
  if forallb isna t then raise AllTimestampsFailed else
  df ← copy df;
  store_column df "_ts" (Time <$> (tz_convert tz <$> t));;
  (* Parse power values *)
  frame ← load df;
  pcells ← lift (getitem frame powercol);
  store_column df "_p" (Float <$> (to_numeric <$> pcells));;
  frame ← load df;
  df ← alloc (dropna frame ["_ts"; "_p"]%string);
  frame ← load df;
  df ← alloc (sort_values frame "_ts");
  frame ← load df;
  if empty frame then raise NoValidRows else
  (* Normalise to minute buckets *)
  ts ← lift (getitem frame "_ts");
  store_column df "_minute" ((fun c => Time (floor_min <$> time_of c)) <$> ts);;
  frame ← load df;
  keys ← lift (getitem frame "_minute");
  vals ← lift (getitem frame "_p");
  let per_min := groupby_mean (time_of <$> keys) (float_of <$> vals) in
  lift (integrate per_min powercol fill top_gaps).

(** ** Scenarios of the specification *)

(** A CSV frame with a time column [_time] and a power column [watts]: each
    row gives the minute of its sample, or [None] for a timestamp that does
    not parse, and the Watt reading. *)
Definition csv_frame (rows : list (option Z * option Q)) : DataFrame :=
  [ ("_time"%string, (fun r : option Z * option Q => Text ((fun m => m * minute) <$> r.1) None) <$> rows);
    ("watts"%string, (fun r : option Z * option Q => Text None r.2) <$> rows) ].


(** 600 W on each of 60 consecutive minutes. *)
Definition steady_rows : list (option Z * option Q) :=
  (fun k : nat => (Some (Z.of_nat k), Some (600 # 1)%Q)) <$> seq 0 60.


Definition gappy_series : Series :=
  (fun k : nat =>
     (Z.of_nat k * minute,
      if bool_decide (3 <= k <= 6)%nat then None else Some (120 # 1)%Q)) <$> seq 0 10.

(** ** Notions the statements use *)

(** A position range [i, j) is a run: every position in it is missing and
    position [j] is not. *)
Definition run_of (mm : list bool) (i j : nat) : Prop :=
  (∀ k : nat, (i ≤ k < j)%nat → mm !! k = Some true) ∧ in_run mm j = false.

(** The runs of missing positions from position [i] on, as position ranges:
    what the outer loop does, as a relation. *)
Inductive Runs (mm : list bool) : nat → list (nat * nat) → Prop :=
  | Runs_end i :
      (length mm ≤ i)%nat → Runs mm i []
  | Runs_skip i R :
      mm !! i = Some false → Runs mm (S i) R → Runs mm i R
  | Runs_gap i j R :
      mm !! i = Some true → (i < j)%nat → run_of mm i j → Runs mm j R →
      Runs mm i ((i, j) :: R).

(** The gap the code records for a run. *)
Definition gap_at (full_idx : list Timestamp) (r : nat * nat) : Gap :=
  (default 0 (full_idx !! r.1), default 0 (full_idx !! (r.2 - 1)%nat), Z.of_nat (r.2 - r.1)).

(** Runs come in position order and never touch: a present minute lies
    between any two of them. *)
Definition run_before (r1 r2 : nat * nat) : Prop := (r1.2 < r2.1)%nat.

(** The minutes of a list of position ranges. *)
Definition runs_length (R : list (nat * nat)) : Z :=
  foldr (fun r acc => Z.of_nat (r.2 - r.1) + acc) 0 R.

(** The sum of the recorded lengths. *)
Definition sum_gap_len (gaps : list (Z * Z * Z)) : Z :=
  foldr (fun g acc => gap_len g + acc) 0 gaps.

(** What an aligned series is: its index is the timeline. *)
Definition aligned (series : list (Z * option Q)) (start end_ : Z) : Prop :=
  index series = date_range start end_.

(** The gap of a position range of the timeline that starts at [start]. *)
Definition gap_of_run (start : Z) (r : nat * nat) : Z * Z * Z :=
  (start + Z.of_nat r.1 * minute,
   start + (Z.of_nat r.2 - 1) * minute,
   Z.of_nat r.2 - Z.of_nat r.1).



(** A bucket claims a length inside its bounds. *)
Definition claims (b : string * Z * Z) (len : Z) : Prop := b.1.2 ≤ len ≤ b.2.

(** [sum(d.values())] *)
Definition dict_sum (d : gmap string Z) : Z := map_fold (fun _ v acc => v + acc) 0 d.

Definition bucket_keys : list string := buckets.*1.*1.

(** Every bucket label is a key of the dict. *)
Definition has_keys (d : gmap string Z) : Prop :=
  Forall (fun k => is_Some (d !! k)) bucket_keys.

Definition long_gap_series (n : nat) : list (Z * option Q) :=
  (fun k : nat =>
     (Z.of_nat k * minute,
      if bool_decide (1 ≤ k ≤ n)%nat then None else Some 1%Q)) <$> seq 0 (S (S n)).

Definition no_missing (s : list (Z * option Q)) : Prop :=
  Forall (fun p => is_Some p.2) s.

Definition first_present (s : list (Z * option Q)) : Prop :=
  ∃ t v s', s = (t, Some v) :: s'.

(** A group of the bucketizer: on a minute mark, with at least one value and
    no NaN among its values. *)
Definition good_group (g : Z * list (option Q)) : Prop :=
  (∃ t, g.1 = floor_min t) ∧ g.2 ≠ [] ∧ Forall is_Some g.2.

(** The columns [_minute] and [_p] of the surviving rows. *)
Definition minute_keys (rows : list (Z * Q)) : list (option Z) :=
  (fun r : Z * Q => Some (floor_min r.1)) <$> rows.
Definition power_vals (rows : list (Z * Q)) : list (option Q) :=
  (fun r : Z * Q => Some r.2) <$> rows.

(** The BucketedSeries of the surviving rows. *)
Definition bucketize (rows : list (Z * Q)) : list (Z * option Q) :=
  groupby_mean (minute_keys rows) (power_vals rows).

Definition resolve_powercol_of (frame : list (string * list Cell)) (timecol : string)
    (powercol : option string) : result string :=
  match powercol with
  | None => detect_power_col frame timecol
  | Some c => if bool_decide (c ∉ columns frame) then Raise MissingPowerColumn else Ok c
  end.

(** [compute_energy] on the frame behind its argument, with the store left
    out: the same steps on frame values. *)
Definition pipeline (frame : list (string * list Cell)) (timecol : string)
    (powercol : option string) (fill : string) (tz : string) (top_gaps : Z) : result Result :=
  if bool_decide (timecol ∉ columns frame) then Raise MissingTimeColumn else
  powercol ← resolve_powercol_of frame timecol powercol;
  tcells ← getitem frame timecol;
  let t := to_datetime <$> tcells in
  if forallb isna t then Raise AllTimestampsFailed else
  let frame1 := setitem frame "_ts" (Time <$> (tz_convert tz <$> t)) in
  pcells ← getitem frame1 powercol;
  let frame2 := setitem frame1 "_p" (Float <$> (to_numeric <$> pcells)) in
  let frame3 := dropna frame2 ["_ts"; "_p"]%string in
  let frame4 := sort_values frame3 "_ts" in
  if empty frame4 then Raise NoValidRows else
  ts ← getitem frame4 "_ts";
  let frame5 := setitem frame4 "_minute" ((fun c => Time (floor_min <$> time_of c)) <$> ts) in
  keys ← getitem frame5 "_minute";
  vals ← getitem frame5 "_p";
  integrate (groupby_mean (time_of <$> keys) (float_of <$> vals)) powercol fill top_gaps.

(** Every column has [n] cells. *)
Definition wf_frame (n : nat) (df : list (string * list Cell)) : Prop :=
  Forall (fun c => length c.2 = n) df.

(** A row that survived: a timestamp and a reading, both parsed from one
    input row. *)
Definition parsed_pair (t : list (option Z)) (p : list (option Q)) (x : Cell) (y : Cell) : Prop :=
  ∃ i a b, x = Time (Some a) ∧ y = Float (Some b)
         ∧ t !! i = Some (Some a) ∧ p !! i = Some (Some b).


(** ** Notions of the further properties *)

(** The parsed timestamps and power readings of a run: the time column
    through [to_datetime], the power column of the working copy through
    [to_numeric]. *)
Definition parsed_columns (frame : list (string * list Cell)) (timecol pc : string)
    (t : list (option Z)) (p : list (option Q)) : Prop :=
  ∃ tcells pcells,
    getitem frame timecol = Ok tcells
    ∧ getitem (setitem frame "_ts" (Time <$> (to_datetime <$> tcells))) pc = Ok pcells
    ∧ t = to_datetime <$> tcells
    ∧ p = to_numeric <$> pcells.

(** [int(pd.to_numeric(df[c], errors="coerce").notna().sum())] *)
Definition numeric_count (df : list (string * list Cell)) (c : string) : Z :=
  match getitem df c with
  | Ok cells => Z.of_nat (length (filter (fun x => isna (to_numeric x) = false) cells))
  | Raise _ => 0
  end.

(** The columns the detection looks at. *)
Definition other_columns (df : list (string * list Cell)) (timecol : string) : list string :=
  filter (fun c => c ≠ timecol) (columns df).

(** The entries at positions [a+1 .. b-1] are all missing. *)
Definition missing_between (s : list (Z * option Q)) (a b : nat) : Prop :=
  ∀ k : nat, (a < k < b)%nat → ∃ t, s !! k = Some (t, None).

(** The entries at positions [0 .. b-1] are all missing. *)
Definition missing_upto (s : list (Z * option Q)) (b : nat) : Prop :=
  ∀ k : nat, (k < b)%nat → ∃ t, s !! k = Some (t, None).

(** The value on the line through [(ta, va)] and [(tb, vb)] at time [t]. *)
Definition on_line (ta : Z) (va : Q) (tb : Z) (vb : Q) (t : Z) : Q :=
  (va + (vb - va) * (inject_Z (t - ta) / inject_Z (tb - ta)))%Q.

(** The readings of the rows that fall into the minute [k], in row order. *)
Definition bucket_readings (k : Z) (rows : list (Z * Q)) : list Q :=
  (filter (fun x : Z * Q => floor_min x.1 = k) rows).*2.


(** Groups in ascending key order, each holding the readings of its minute
    among the rows seen so far. *)
Definition groups_of (gs : list (Z * list (option Q))) (seen : list (Z * Q)) : Prop :=
  StronglySorted Z.lt gs.*1
  ∧ (∀ k, k ∈ gs.*1 ↔ ∃ x, x ∈ seen ∧ floor_min x.1 = k)
  ∧ ∀ k vs, (k, vs) ∈ gs → vs = Some <$> bucket_readings k seen.



(** * Properties *)

Lemma bind_Ok {A B} (a : A) (f : A → result B) : (Ok a ≫= f) = f a.
Proof. reflexivity. Qed.

Lemma bind_Raise {A B} (e : exn) (f : A → result B) : (Raise e ≫= f) = Raise e.
Proof. reflexivity. Qed.

(** ** The scan for missing runs *)

Lemma in_run_true (mm : list bool) (j : nat) :
  in_run mm j = true ↔ mm !! j = Some true.
Proof.
  unfold in_run. split.
  - intros [H1 H2]%andb_true_iff.
    destruct (mm !! j) as [[]|] eqn:E; simpl in *; congruence.
  - intros E. apply andb_true_iff. split.
    + apply Nat.ltb_lt. by eapply lookup_lt_Some.
    + by rewrite E.
Qed.

Lemma in_run_false (mm : list bool) (j : nat) :
  in_run mm j = false ↔ mm !! j ≠ Some true.
Proof.
  rewrite <- in_run_true. destruct (in_run mm j); split; congruence.
Qed.

Lemma run_of_unique (mm : list bool) (i j1 j2 : nat) :
  (i ≤ j1)%nat → (i ≤ j2)%nat → run_of mm i j1 → run_of mm i j2 → j1 = j2.
Proof.
  intros Hi1 Hi2 [A1 B1] [A2 B2].
  apply in_run_false in B1, B2.
  destruct (Nat.lt_trichotomy j1 j2) as [Hlt | [-> | Hlt]]; [|done|].
  - destruct B1. apply A2. lia.
  - destruct B2. apply A1. lia.
Qed.

Lemma inner_while_spec (mm : list bool) (fuel j : nat) :
  (length mm ≤ fuel + j)%nat →
  ∃ j', inner_while fuel mm j = Ok j' ∧ (j ≤ j')%nat ∧ run_of mm j j'.
Proof.
  revert j. induction fuel as [|fuel IH]; intros j Hf; simpl.
  - destruct (in_run mm j) eqn:E.
    + apply in_run_true, lookup_lt_Some in E. lia.
    + exists j. split; [done|]. split; [lia|]. split; [intros; lia | done].
  - destruct (in_run mm j) eqn:E.
    + destruct (IH (S j)) as (j' & R & Hle & Hall & Hstop); [lia|].
      exists j'. split; [done|]. split; [lia|]. split; [|done].
      intros k Hk. destruct (decide (k = j)) as [->|]; [by apply in_run_true|].
      apply Hall. lia.
    + exists j. split; [done|]. split; [lia|]. split; [intros; lia | done].
Qed.

Lemma Runs_exist (mm : list bool) (i : nat) : ∃ R, Runs mm i R.
Proof.
  remember (length mm - i)%nat as n eqn:Hn.
  revert i Hn. induction (lt_wf n) as [n _ IH]. intros i ->.
  destruct (mm !! i) as [[]|] eqn:E.
  - destruct (inner_while_spec mm (length mm) i) as (j & _ & Hle & Hrun); [lia|].
    assert (i < j)%nat.
    { destruct (decide (i = j)) as [<-|]; [|lia].
      destruct Hrun as [_ Hstop]. apply in_run_false in Hstop. done. }
    pose proof (lookup_lt_Some _ _ _ E).
    destruct (IH (length mm - j)%nat ltac:(lia) j eq_refl) as [R HR].
    exists ((i, j) :: R). by constructor.
  - pose proof (lookup_lt_Some _ _ _ E).
    destruct (IH (length mm - S i)%nat ltac:(lia) (S i) eq_refl) as [R HR].
    exists R. by constructor.
  - apply lookup_ge_None in E. exists []. by constructor.
Qed.

Lemma Runs_bounds (mm : list bool) (i : nat) (R : list (nat * nat)) :
  Runs mm i R → Forall (fun r => (i ≤ r.1 < r.2)%nat ∧ (r.2 ≤ length mm)%nat) R.
Proof.
  induction 1 as [i Hi | i R E _ IH | i j R E Hij Hrun _ IH].
  - constructor.
  - eapply Forall_impl; [exact IH|]. simpl. intros; lia.
  - constructor.
    + simpl. split; [lia|].
      destruct Hrun as [Hall _].
      specialize (Hall (j - 1)%nat ltac:(lia)). apply lookup_lt_Some in Hall. lia.
    + eapply Forall_impl; [exact IH|]. simpl. intros; lia.
Qed.

Lemma outer_while_runs (mm : list bool) (full_idx : list Timestamp) (i : nat)
    (R : list (nat * nat)) :
  Runs mm i R →
  (length mm ≤ length full_idx)%nat →
  ∀ fuel gaps, (length mm ≤ fuel + i)%nat →
    outer_while fuel mm full_idx i gaps = Ok (gaps ++ (gap_at full_idx <$> R)).
Proof.
  intros HR Hlen.
  induction HR as [i Hi | i R E _ IH | i j R E Hij Hrun HR IH]; intros fuel gaps Hf.
  - destruct fuel; simpl; (destruct (Nat.ltb_spec i (length mm)); [lia|]);
      by rewrite app_nil_r.
  - pose proof (lookup_lt_Some _ _ _ E).
    destruct fuel; [lia|]. simpl.
    destruct (Nat.ltb_spec i (length mm)); [|lia].
    rewrite E. simpl. apply IH. lia.
  - pose proof (lookup_lt_Some _ _ _ E).
    destruct fuel; [lia|]. simpl.
    destruct (Nat.ltb_spec i (length mm)); [|lia].
    rewrite E. simpl.
    destruct (inner_while_spec mm (length mm) i) as (j' & -> & Hle & Hrun'); [lia|].
    assert (j' = j) as -> by (eapply run_of_unique; eauto; lia).
    pose proof (Runs_bounds _ _ _ HR) as Hb.
    assert (j ≤ length mm)%nat.
    { destruct Hrun as [Hall _].
      specialize (Hall (j - 1)%nat ltac:(lia)). apply lookup_lt_Some in Hall. lia. }
    destruct (lookup_lt_is_Some_2 full_idx i ltac:(lia)) as [s Es].
    destruct (lookup_lt_is_Some_2 full_idx (j - 1)%nat ltac:(lia)) as [e Ee].
    rewrite bind_Ok. unfold getitem_pos. rewrite Es, Ee, !bind_Ok.
    rewrite IH by lia. rewrite <- app_assoc. simpl.
    assert (gap_at full_idx (i, j) = (s, e, Z.of_nat (j - i))) as ->; [|done].
    unfold gap_at. simpl. by rewrite Es, Ee.
Qed.

Lemma Runs_starts (mm : list bool) (i : nat) (R : list (nat * nat)) :
  Runs mm i R → Forall (fun r => mm !! r.1 = Some true) R.
Proof. induction 1; [constructor | done | by constructor]. Qed.

Lemma Runs_cover (mm : list bool) (i : nat) (R : list (nat * nat)) :
  Runs mm i R →
  ∀ k : nat, (i ≤ k)%nat →
    mm !! k = Some true ↔ ∃ r, r ∈ R ∧ (r.1 ≤ k < r.2)%nat.
Proof.
  induction 1 as [i Hi | i R E HR IH | i j R E Hij Hrun HR IH]; intros k Hk.
  - split.
    + intros Hl%lookup_lt_Some. lia.
    + intros (r & Hr & _). by apply elem_of_nil in Hr.
  - destruct (decide (k = i)) as [->|Hne].
    + split; [congruence|].
      intros (r & Hr & Hin).
      pose proof (Runs_bounds _ _ _ HR) as Hb.
      rewrite Forall_forall in Hb. specialize (Hb r Hr). lia.
    + apply IH. lia.
  - destruct (decide (k < j)%nat) as [Hlt|Hge].
    + split.
      * intros _. exists (i, j). split; [left | simpl; lia].
      * intros _. destruct Hrun as [Hall _]. apply Hall. lia.
    + rewrite IH by lia. split.
      * intros (r & Hr & Hin). exists r. split; [by right | done].
      * intros (r & Hr & Hin). apply elem_of_cons in Hr as [-> | Hr].
        -- simpl in Hin. lia.
        -- by exists r.
Qed.

Lemma Runs_separated (mm : list bool) (i : nat) (R : list (nat * nat)) :
  Runs mm i R → StronglySorted run_before R.
Proof.
  induction 1 as [i Hi | i R E HR IH | i j R E Hij Hrun HR IH].
  - constructor.
  - done.
  - constructor; [done|].
    pose proof (Runs_bounds _ _ _ HR) as Hb.
    pose proof (Runs_starts _ _ _ HR) as Hs.
    rewrite Forall_forall in Hb, Hs. apply Forall_forall. intros r Hr.
    unfold run_before. simpl.
    specialize (Hb r Hr). specialize (Hs r Hr).
    destruct Hrun as [_ Hstop]. apply in_run_false in Hstop.
    destruct (decide (r.1 = j)) as [Heq|]; [|lia].
    rewrite Heq in Hs. done.
Qed.

Lemma count_true_cons (b : bool) (mm : list bool) :
  count_true (b :: mm) = (if b then 1 else 0) + count_true mm.
Proof.
  unfold count_true. rewrite filter_cons.
  destruct b; case_decide; try done; simpl length; lia.
Qed.

Lemma count_true_run (mm : list bool) (n i : nat) :
  (∀ k : nat, (i ≤ k < i + n)%nat → mm !! k = Some true) →
  count_true (drop i mm) = Z.of_nat n + count_true (drop (i + n) mm).
Proof.
  revert i. induction n as [|n IH]; intros i Hall.
  - rewrite Nat.add_0_r. lia.
  - rewrite (drop_S mm true i) by (apply Hall; lia).
    rewrite count_true_cons, IH by (intros; apply Hall; lia).
    replace (S i + n)%nat with (i + S n)%nat by lia. lia.
Qed.

Lemma Runs_length (mm : list bool) (i : nat) (R : list (nat * nat)) :
  Runs mm i R → runs_length R = count_true (drop i mm).
Proof.
  induction 1 as [i Hi | i R E HR IH | i j R E Hij Hrun HR IH].
  - by rewrite drop_ge.
  - rewrite (drop_S mm false i) by done. rewrite count_true_cons. lia.
  - simpl. rewrite IH. destruct Hrun as [Hall _].
    rewrite (count_true_run mm (j - i) i) by (intros; apply Hall; lia).
    replace (i + (j - i))%nat with j by lia. done.
Qed.

(** ** The timeline *)

Lemma minute_pos : 0 < minute.
Proof. reflexivity. Qed.

Lemma length_date_range (start end_ : Z) :
  length (date_range start end_) = Z.to_nat ((end_ - start) / minute + 1).
Proof. unfold date_range. by rewrite length_fmap, length_seq. Qed.

Lemma date_range_lookup (start end_ : Z) (k : nat) :
  (k < length (date_range start end_))%nat →
  date_range start end_ !! k = Some (start + Z.of_nat k * minute).
Proof.
  intros Hk. rewrite length_date_range in Hk.
  unfold date_range. rewrite list_lookup_fmap, lookup_seq_lt by done. done.
Qed.

Lemma gap_at_date_range (start end_ : Z) (r : nat * nat) :
  (r.1 < r.2)%nat → (r.2 ≤ length (date_range start end_))%nat →
  gap_at (date_range start end_) r =
    (start + Z.of_nat r.1 * minute,
     start + (Z.of_nat r.2 - 1) * minute,
     Z.of_nat r.2 - Z.of_nat r.1).
Proof.
  intros H1 H2. unfold gap_at.
  rewrite !date_range_lookup by lia. simpl.
  repeat f_equal; lia.
Qed.

(** ** What [find_gaps] returns *)

Lemma find_gaps_runs (mm : list bool) (full_idx : list Z) :
  (length mm ≤ length full_idx)%nat →
  ∃ R, Runs mm 0 R ∧ find_gaps mm full_idx = Ok (gap_at full_idx <$> R).
Proof.
  intros Hlen. destruct (Runs_exist mm 0) as [R HR].
  exists R. split; [done|].
  unfold find_gaps. by rewrite (outer_while_runs mm full_idx 0 R HR Hlen) by lia.
Qed.

Lemma length_mask (series : list (Z * option Q)) :
  length (isna <$> values series) = length series.
Proof. unfold values. by rewrite !length_fmap. Qed.

Lemma mask_lookup (series : list (Z * option Q)) (k : nat) (t : Z) (v : option Q) :
  series !! k = Some (t, v) → (isna <$> values series) !! k = Some (isna v).
Proof. intros E. unfold values. by rewrite !list_lookup_fmap, E. Qed.

Lemma sum_gap_len_runs (full_idx : list Z) (R : list (nat * nat)) :
  sum_gap_len (gap_at full_idx <$> R) = runs_length R.
Proof. induction R as [|r R IH]; simpl; [done|]. f_equal. exact IH. Qed.

Lemma build_gap_report_unfold (full_idx : list Z) (series : list (Z * option Q))
    (top_n : Z) (gaps : list (Z * Z * Z)) :
  find_gaps (isna <$> values series) full_idx = Ok gaps →
  ∃ r, build_gap_report full_idx series top_n = Ok r
     ∧ gap_count r = Z.of_nat (length gaps)
     ∧ minutes_missing r = count_true (isna <$> values series)
     ∧ bucket_counts r = (bucket_all gaps).1
     ∧ bucket_minutes r = (bucket_all gaps).2
     ∧ largest_gaps r = slice_to top_n (sorted_desc gaps).
Proof.
  intros E. unfold build_gap_report. rewrite E, bind_Ok.
  eexists. split; [reflexivity|]. simpl. done.
Qed.

Lemma StronglySorted_lookup {A} (R : relation A) (l : list A) (a b : nat) (x y : A) :
  StronglySorted R l → (a < b)%nat → l !! a = Some x → l !! b = Some y → R x y.
Proof.
  intros Hs. revert a b. induction Hs as [|z l Hs IH Hall]; intros a b Hab Ha Hb.
  - by rewrite lookup_nil in Ha.
  - destruct b as [|b]; [lia|]. simpl in Hb.
    destruct a as [|a]; simpl in Ha.
    + injection Ha as ->. rewrite Forall_forall in Hall.
      apply Hall. by eapply list_elem_of_lookup_2.
    + eapply IH; [|done..]. lia.
Qed.

Lemma aligned_length (series : list (Z * option Q)) (start end_ : Z) :
  aligned series start end_ → length (date_range start end_) = length series.
Proof. intros <-. unfold index. by rewrite length_fmap. Qed.

Lemma aligned_lookup (series : list (Z * option Q)) (start end_ : Z) (k : nat)
    (t : Z) (v : option Q) :
  aligned series start end_ → series !! k = Some (t, v) →
  t = start + Z.of_nat k * minute.
Proof.
  intros Hal E.
  assert (index series !! k = Some t) as Ht
    by (unfold index; by rewrite list_lookup_fmap, E).
  rewrite Hal in Ht.
  rewrite date_range_lookup in Ht by (by eapply lookup_lt_Some).
  congruence.
Qed.

(** The gaps of an aligned series, with the position ranges behind them. *)
Lemma find_gaps_aligned (series : list (Z * option Q)) (start end_ : Z) :
  aligned series start end_ →
  ∃ R, Runs (isna <$> values series) 0 R
     ∧ find_gaps (isna <$> values series) (date_range start end_)
       = Ok (gap_of_run start <$> R).
Proof.
  intros Hal. pose proof (aligned_length _ _ _ Hal) as Hlen.
  destruct (find_gaps_runs (isna <$> values series) (date_range start end_))
    as (R & HR & E); [rewrite length_mask; lia|].
  exists R. split; [done|]. rewrite E. f_equal.
  apply Forall_fmap_ext_1.
  pose proof (Runs_bounds _ _ _ HR) as Hb. rewrite length_mask in Hb.
  eapply Forall_impl; [exact Hb|]. simpl. intros r Hr.
  unfold gap_of_run. apply gap_at_date_range; lia.
Qed.

Lemma sum_gap_len_cons (g : Z * Z * Z) (gaps : list (Z * Z * Z)) :
  sum_gap_len (g :: gaps) = gap_len g + sum_gap_len gaps.
Proof. reflexivity. Qed.

Lemma runs_length_cons (r : nat * nat) (R : list (nat * nat)) :
  runs_length (r :: R) = Z.of_nat (r.2 - r.1) + runs_length R.
Proof. reflexivity. Qed.

Lemma sum_gap_len_of_runs (start : Z) (R : list (nat * nat)) :
  Forall (fun r => (r.1 < r.2)%nat) R →
  sum_gap_len (gap_of_run start <$> R) = runs_length R.
Proof.
  induction 1 as [|r R Hr _ IH]; [done|].
  rewrite fmap_cons, sum_gap_len_cons, runs_length_cons, IH.
  unfold gap_len, gap_of_run. simpl. lia.
Qed.

(** ** Gap coverage *)

Lemma gaps_cover_missing (series : list (Z * option Q)) (start end_ : Z)
    (R : list (nat * nat)) :
  aligned series start end_ →
  Runs (isna <$> values series) 0 R →
  ∀ t v, (t, v) ∈ series →
    v = None ↔ ∃ g, g ∈ gap_of_run start <$> R ∧ gap_start g ≤ t ≤ gap_end g.
Proof.
  intros Hal HR t v [k Hk]%list_elem_of_lookup_1.
  pose proof (aligned_lookup _ _ _ _ _ _ Hal Hk) as ->.
  pose proof (mask_lookup _ _ _ _ Hk) as Hm.
  pose proof (Runs_cover _ _ _ HR k ltac:(lia)) as Hc.
  pose proof (Runs_bounds _ _ _ HR) as Hb. rewrite Forall_forall in Hb.
  split.
  - intros ->. destruct Hc as [Hc _]. destruct (Hc Hm) as (r & Hr & Hin).
    exists (gap_of_run start r). split; [by apply list_elem_of_fmap_2|].
    unfold gap_start, gap_end, gap_of_run, minute. simpl. lia.
  - intros (g & [r [-> Hr]]%list_elem_of_fmap & Hin).
    destruct Hc as [_ Hc].
    assert ((isna <$> values series) !! k = Some true) as Hk'.
    { apply Hc. exists r. split; [done|].
      specialize (Hb r Hr).
      unfold gap_start, gap_end, gap_of_run, minute in Hin. simpl in Hin. lia. }
    rewrite Hm in Hk'. destruct v; simpl in Hk'; congruence.
Qed.

Lemma gaps_disjoint (start : Z) (mm : list bool) (R : list (nat * nat)) :
  Runs mm 0 R →
  ∀ (a b : nat) ga gb, (a < b)%nat →
    (gap_of_run start <$> R) !! a = Some ga →
    (gap_of_run start <$> R) !! b = Some gb →
    gap_end ga < gap_start gb.
Proof.
  intros HR a b ga gb Hab Ha Hb.
  rewrite list_lookup_fmap in Ha, Hb.
  destruct (R !! a) as [ra|] eqn:Ea; [|done].
  destruct (R !! b) as [rb|] eqn:Eb; [|done].
  simpl in Ha, Hb. injection Ha as <-. injection Hb as <-.
  pose proof (StronglySorted_lookup _ _ _ _ _ _ (Runs_separated _ _ _ HR) Hab Ea Eb) as Hs.
  unfold run_before in Hs.
  unfold gap_start, gap_end, gap_of_run, minute. simpl. lia.
Qed.

(** ** Gap triples *)

Lemma gap_of_run_consistent (series : list (Z * option Q)) (start end_ : Z)
    (R : list (nat * nat)) :
  aligned series start end_ →
  Runs (isna <$> values series) 0 R →
  ∀ g, g ∈ gap_of_run start <$> R →
    1 ≤ gap_len g
    ∧ gap_end g = gap_start g + (gap_len g - 1) * minute
    ∧ gap_start g ∈ date_range start end_
    ∧ gap_end g ∈ date_range start end_.
Proof.
  intros Hal HR g [r [-> Hr]]%list_elem_of_fmap.
  pose proof (Runs_bounds _ _ _ HR) as Hb. rewrite Forall_forall in Hb.
  specialize (Hb r Hr). rewrite length_mask, <- (aligned_length _ _ _ Hal) in Hb.
  unfold gap_len, gap_start, gap_end, gap_of_run. simpl.
  split; [lia|]. split; [lia|]. split.
  - apply list_elem_of_lookup. exists r.1. rewrite date_range_lookup by lia. done.
  - apply list_elem_of_lookup. exists (r.2 - 1)%nat.
    rewrite date_range_lookup by lia. f_equal. unfold minute. lia.
Qed.

(** ** The largest gaps *)

Lemma insert_desc_perm (x : Z * Z * Z) (l : list (Z * Z * Z)) :
  insert_desc x l ≡ₚ x :: l.
Proof.
  induction l as [|y l IH]; simpl; [done|].
  destruct (gap_len y <=? gap_len x); [done|].
  rewrite IH. apply perm_swap.
Qed.

Lemma sorted_desc_perm (gaps : list (Z * Z * Z)) : sorted_desc gaps ≡ₚ gaps.
Proof.
  induction gaps as [|x l IH]; simpl; [done|].
  rewrite insert_desc_perm. by rewrite IH.
Qed.





(** ** Length buckets *)

Lemma pow_10_9 : 10 ^ 9 = 1000000000.
Proof. reflexivity. Qed.

Lemma dict_sum_alter (d : gmap string Z) (k : string) (n : Z) :
  is_Some (d !! k) → dict_sum (alter (Z.add n) k d) = n + dict_sum d.
Proof.
  intros [v Hv]. unfold dict_sum.
  rewrite (map_fold_delete_L _ 0 k (n + v) (alter (Z.add n) k d));
    [|intros; lia | by rewrite lookup_alter_eq, Hv].
  rewrite (map_fold_delete_L _ 0 k v d); [|intros; lia | done].
  rewrite delete_alter_eq. lia.
Qed.

Lemma has_keys_zero : has_keys zero_buckets.
Proof. unfold has_keys. repeat constructor; vm_compute; eauto. Qed.

Lemma has_keys_alter (d : gmap string Z) (f : Z → Z) (k : string) :
  has_keys d → has_keys (alter f k d).
Proof.
  unfold has_keys. intros H. eapply Forall_impl; [exact H|]. intros k' [v Hv].
  destruct (decide (k = k')) as [->|Hne].
  - rewrite lookup_alter_eq, Hv. by eexists.
  - rewrite lookup_alter_ne by done. by eexists.
Qed.

Ltac in_list := unfold bucket_keys, buckets; simpl; rewrite ?elem_of_cons; tauto.

Lemma bucket_gap_claimed (len : Z) (st : gmap string Z * gmap string Z) :
  1 ≤ len ≤ 10 ^ 9 →
  ∃ k, k ∈ bucket_keys
     ∧ bucket_gap buckets len st = (alter (Z.add 1) k st.1, alter (Z.add len) k st.2).
Proof.
  rewrite pow_10_9. intros Hlen. unfold buckets. rewrite pow_10_9. simpl.
  destruct (Z.leb_spec 1 len); [|lia].
  destruct (Z.leb_spec len 2); simpl.
  { exists "1-2"%string. split; [in_list | reflexivity]. }
  destruct (Z.leb_spec 3 len); [|lia].
  destruct (Z.leb_spec len 15); simpl.
  { exists "3-15"%string. split; [in_list | reflexivity]. }
  destruct (Z.leb_spec 16 len); [|lia].
  destruct (Z.leb_spec len 120); simpl.
  { exists "16-120"%string. split; [in_list | reflexivity]. }
  destruct (Z.leb_spec 121 len); [|lia].
  destruct (Z.leb_spec len 1000000000); [|lia]. simpl.
  exists ">120"%string. split; [in_list | reflexivity].
Qed.

Lemma bucket_gap_unclaimed (len : Z) (st : gmap string Z * gmap string Z) :
  10 ^ 9 < len → bucket_gap buckets len st = st.
Proof.
  rewrite pow_10_9. intros Hlen. unfold buckets. rewrite pow_10_9. simpl.
  destruct (Z.leb_spec len 2); [lia|].
  destruct (Z.leb_spec len 15); [lia|].
  destruct (Z.leb_spec len 120); [lia|].
  destruct (Z.leb_spec len 1000000000); [lia|].
  by rewrite !andb_false_r.
Qed.

Ltac bucket_cases Hb :=
  unfold buckets in Hb; rewrite pow_10_9 in Hb;
  repeat (apply elem_of_cons in Hb as [-> | Hb]);
  [ .. | by apply elem_of_nil in Hb ].

Lemma claimed_once (len : Z) :
  1 ≤ len ≤ 10 ^ 9 →
  ∃ b, b ∈ buckets ∧ claims b len
     ∧ ∀ b', b' ∈ buckets → claims b' len → b' = b.
Proof.
  rewrite pow_10_9. intros Hlen.
  assert (len ≤ 2 ∨ 3 ≤ len ≤ 15 ∨ 16 ≤ len ≤ 120 ∨ 121 ≤ len) as Hc by lia.
  destruct Hc as [Hc | [Hc | [Hc | Hc]]].
  - exists ("1-2"%string, 1, 2).
    split; [in_list|]. split; [unfold claims; simpl; lia|].
    intros b' Hb' Hcl. bucket_cases Hb'; unfold claims in Hcl; simpl in Hcl;
      first [reflexivity | lia].
  - exists ("3-15"%string, 3, 15).
    split; [in_list|]. split; [unfold claims; simpl; lia|].
    intros b' Hb' Hcl. bucket_cases Hb'; unfold claims in Hcl; simpl in Hcl;
      first [reflexivity | lia].
  - exists ("16-120"%string, 16, 120).
    split; [in_list|]. split; [unfold claims; simpl; lia|].
    intros b' Hb' Hcl. bucket_cases Hb'; unfold claims in Hcl; simpl in Hcl;
      first [reflexivity | lia].
  - exists (">120"%string, 121, 10 ^ 9).
    split; [in_list|].
    split; [unfold claims; simpl fst; simpl snd; rewrite pow_10_9; lia|].
    intros b' Hb' Hcl. bucket_cases Hb'; unfold claims in Hcl; simpl in Hcl;
      first [reflexivity | lia].
Qed.

Lemma unclaimed (len : Z) (b : string * Z * Z) :
  10 ^ 9 < len → b ∈ buckets → ¬ claims b len.
Proof.
  rewrite pow_10_9. intros Hlen Hb Hcl.
  bucket_cases Hb; unfold claims in Hcl; simpl in Hcl; lia.
Qed.

(** The two dicts after the loop over the gaps. *)
Lemma bucket_fold_sums (gaps : list (Z * Z * Z)) (st : gmap string Z * gmap string Z) :
  Forall (fun g => 1 ≤ gap_len g ≤ 10 ^ 9) gaps →
  has_keys st.1 → has_keys st.2 →
  let st' := foldl (fun st g => bucket_gap buckets (gap_len g) st) st gaps in
  dict_sum st'.1 = dict_sum st.1 + Z.of_nat (length gaps)
  ∧ dict_sum st'.2 = dict_sum st.2 + sum_gap_len gaps.
Proof.
  intros Hall. revert st. induction Hall as [|g gaps Hg _ IH]; intros st H1 H2.
  - simpl. lia.
  - cbn [foldl].
    destruct (bucket_gap_claimed (gap_len g) st Hg) as (k & Hk & ->).
    unfold has_keys in H1, H2. rewrite Forall_forall in H1, H2.
    destruct (IH (alter (Z.add 1) k st.1, alter (Z.add (gap_len g)) k st.2))
      as [E1 E2]; [by apply has_keys_alter, Forall_forall..|].
    cbn [fst snd] in E1, E2. cbv zeta.
    rewrite E1, E2, !dict_sum_alter by auto.
    rewrite sum_gap_len_cons. simpl length. lia.
Qed.

Lemma dict_sum_zero : dict_sum zero_buckets = 0.
Proof. vm_compute. reflexivity. Qed.

Lemma drop_0_count (mm : list bool) : count_true (drop 0 mm) = count_true mm.
Proof. done. Qed.

Lemma long_gap_mask (n k : nat) :
  (k < S (S n))%nat →
  (isna <$> values (long_gap_series n)) !! k = Some (bool_decide (1 ≤ k ≤ n)%nat).
Proof.
  intros Hk. unfold values, long_gap_series.
  rewrite !list_lookup_fmap, lookup_seq_lt by done. simpl.
  by case_bool_decide.
Qed.

Lemma long_gap_length (n : nat) : length (long_gap_series n) = S (S n).
Proof. unfold long_gap_series. by rewrite length_fmap, length_seq. Qed.

Lemma long_gap_runs (n : nat) :
  (1 ≤ n)%nat → Runs (isna <$> values (long_gap_series n)) 0 [(1%nat, S n)].
Proof.
  intros Hn.
  apply Runs_skip; [rewrite long_gap_mask by lia; by case_bool_decide; [lia|]|].
  apply Runs_gap.
  - rewrite long_gap_mask by lia. by case_bool_decide; [|lia].
  - lia.
  - split.
    + intros k Hk. rewrite long_gap_mask by lia. by case_bool_decide; [|lia].
    + apply in_run_false. rewrite long_gap_mask by lia. by case_bool_decide; [lia|].
  - apply Runs_skip; [rewrite long_gap_mask by lia; by case_bool_decide; [lia|]|].
    apply Runs_end. rewrite length_mask, long_gap_length. lia.
Qed.

Lemma long_gap_report (n : nat) (top_n : Z) :
  1000000000 < Z.of_nat n →
  ∃ r, build_gap_report (index (long_gap_series n)) (long_gap_series n) top_n = Ok r
     ∧ gap_count r = 1
     ∧ bucket_counts r = zero_buckets
     ∧ bucket_minutes r = zero_buckets
     ∧ minutes_missing r = Z.of_nat n.
Proof.
  intros Hn.
  pose proof (long_gap_runs n ltac:(lia)) as HR.
  assert (find_gaps (isna <$> values (long_gap_series n)) (index (long_gap_series n))
          = Ok (gap_at (index (long_gap_series n)) <$> [(1%nat, S n)])) as E.
  { unfold find_gaps. rewrite (outer_while_runs _ _ 0 _ HR); [done| |lia].
    unfold index, values. by rewrite !length_fmap. }
  destruct (build_gap_report_unfold _ _ top_n _ E) as (r & Er & Hc & Hm & Hb1 & Hb2 & _).
  exists r. split; [done|]. split; [done|].
  assert (bucket_all (gap_at (index (long_gap_series n)) <$> [(1%nat, S n)])
          = (zero_buckets, zero_buckets)) as Eb.
  { unfold bucket_all. cbn [fmap list_fmap foldl].
    apply bucket_gap_unclaimed. rewrite pow_10_9.
    unfold gap_len, gap_at. cbn [fst snd]. lia. }
  rewrite Eb in Hb1, Hb2. split; [done|]. split; [done|].
  rewrite Hm, <- drop_0_count, <- (Runs_length _ _ _ HR).
  unfold runs_length. cbn [foldr fst snd]. lia.
Qed.

(** ** Fill policies *)

Lemma index_ffill_from (last : option Q) (s : list (Z * option Q)) :
  index (ffill_from last s) = index s.
Proof.
  revert last. induction s as [|[t v] s IH]; intros last; [done|].
  simpl. f_equal. apply IH.
Qed.

Lemma ffill_from_no_missing (last : option Q) (s : list (Z * option Q)) :
  is_Some last → no_missing (ffill_from last s).
Proof.
  revert last. induction s as [|[t v] s IH]; intros last Hl; simpl; [constructor|].
  constructor.
  - simpl. by destruct v.
  - apply IH. by destruct v.
Qed.

Lemma ffill_first_present (s : list (Z * option Q)) :
  first_present s → no_missing (ffill s) ∧ first_present (ffill s).
Proof.
  intros (t & v & s' & ->). unfold ffill. simpl. split.
  - constructor; [by eexists|]. by apply ffill_from_no_missing.
  - by repeat eexists.
Qed.

Lemma index_interpolate_from (prev : option (Z * Q)) (s : list (Z * option Q)) :
  index (interpolate_from prev s) = index s.
Proof.
  revert prev. induction s as [|[t [v|]] s IH]; intros prev; [done|..];
    simpl; f_equal; apply IH.
Qed.

Lemma interpolate_from_no_missing (prev : option (Z * Q)) (s : list (Z * option Q)) :
  is_Some prev → no_missing (interpolate_from prev s).
Proof.
  revert prev. induction s as [|[t [v|]] s IH]; intros prev Hp; simpl; [constructor|..].
  - constructor; [by eexists|]. by apply IH.
  - constructor; [|by apply IH].
    destruct Hp as [[ta va] ->]. simpl. by destruct (next_valid s) as [[tb vb]|].
Qed.

Lemma interpolate_first_present (s : list (Z * option Q)) :
  first_present s → no_missing (interpolate_time s) ∧ first_present (interpolate_time s).
Proof.
  intros (t & v & s' & ->). unfold interpolate_time. simpl. split.
  - constructor; [by eexists|]. by apply interpolate_from_no_missing.
  - by repeat eexists.
Qed.

Lemma dropna_series_no_missing (s : list (Z * option Q)) : no_missing (dropna_series s).
Proof.
  unfold no_missing, dropna_series. apply Forall_forall.
  intros [t [v|]] [Hp _]%list_elem_of_filter; [by eexists | done].
Qed.

Lemma index_dropna_sublist (s : list (Z * option Q)) :
  index (dropna_series s) `sublist_of` index s.
Proof. unfold index, dropna_series. apply fmap_sublist, sublist_filter. Qed.

(** ** Energy *)




(** ** Bucketizer and window *)

Lemma index_min_spec (idx : list Z) :
  idx ≠ [] → ∃ m, index_min idx = Some m ∧ m ∈ idx ∧ ∀ x, x ∈ idx → m ≤ x.
Proof.
  destruct idx as [|t idx]; [done|]. intros _. simpl.
  assert (∀ l a, foldl Z.min a l ∈ a :: l ∧ foldl Z.min a l ≤ a
                 ∧ ∀ x, x ∈ l → foldl Z.min a l ≤ x) as H.
  { induction l as [|y l IH]; intros a; simpl.
    - split; [left|]. split; [lia|]. intros x Hx. by apply elem_of_nil in Hx.
    - destruct (IH (Z.min a y)) as (H1 & H2 & H3). split; [|split].
      + apply elem_of_cons in H1 as [H1 | H1].
        * rewrite H1. destruct (Z.min_spec a y) as [[_ ->] | [_ ->]];
            [left | right; left].
        * right. by right.
      + lia.
      + intros x [-> | Hx]%elem_of_cons; [lia | by apply H3]. }
  destruct (H idx t) as (H1 & H2 & H3).
  eexists. split; [done|]. split; [done|].
  intros x [-> | Hx]%elem_of_cons; [done | by apply H3].
Qed.

Lemma index_max_spec (idx : list Z) :
  idx ≠ [] → ∃ m, index_max idx = Some m ∧ m ∈ idx ∧ ∀ x, x ∈ idx → x ≤ m.
Proof.
  destruct idx as [|t idx]; [done|]. intros _. simpl.
  assert (∀ l a, foldl Z.max a l ∈ a :: l ∧ a ≤ foldl Z.max a l
                 ∧ ∀ x, x ∈ l → x ≤ foldl Z.max a l) as H.
  { induction l as [|y l IH]; intros a; simpl.
    - split; [left|]. split; [lia|]. intros x Hx. by apply elem_of_nil in Hx.
    - destruct (IH (Z.max a y)) as (H1 & H2 & H3). split; [|split].
      + apply elem_of_cons in H1 as [H1 | H1].
        * rewrite H1. destruct (Z.max_spec a y) as [[_ ->] | [_ ->]];
            [right; left | left].
        * right. by right.
      + lia.
      + intros x [-> | Hx]%elem_of_cons; [lia | by apply H3]. }
  destruct (H idx t) as (H1 & H2 & H3).
  eexists. split; [done|]. split; [done|].
  intros x [-> | Hx]%elem_of_cons; [done | by apply H3].
Qed.

Lemma group_insert_good (t : Z) (x : Q) (gs : list (Z * list (option Q))) :
  Forall good_group gs → Forall good_group (group_insert (floor_min t) (Some x) gs).
Proof.
  induction 1 as [|[k' vs] gs Hg Hgs IH]; simpl.
  - repeat constructor; simpl; eauto.
  - destruct (floor_min t <? k'); [|destruct (floor_min t =? k')].
    + constructor; [|by constructor]. repeat split; simpl; eauto.
    + constructor; [|done]. destruct Hg as (Hk & Hne & Hall).
      split; [done|]. simpl. split; [by destruct vs|].
      apply Forall_app. split; [done|]. repeat constructor. by eexists.
    + by constructor.
Qed.

Lemma group_insert_nonempty (k : Z) (v : option Q) (gs : list (Z * list (option Q))) :
  group_insert k v gs ≠ [].
Proof.
  destruct gs as [|[k' vs] gs]; simpl; [done|].
  destruct (k <? k'); [done|]. by destruct (k =? k').
Qed.

Lemma groupby_good (rows : list (Z * Q)) :
  Forall good_group (groupby (minute_keys rows) (power_vals rows))
  ∧ (rows ≠ [] → groupby (minute_keys rows) (power_vals rows) ≠ []).
Proof.
  unfold groupby.
  assert (∀ gs, Forall good_group gs →
    let gs' := foldl (fun gs kv =>
                 match kv.1 with
                 | Some k => group_insert k kv.2 gs
                 | None => gs
                 end) gs (zip (minute_keys rows) (power_vals rows)) in
    Forall good_group gs' ∧ (gs ≠ [] ∨ rows ≠ [] → gs' ≠ [])) as H.
  { induction rows as [|[t x] rows IH]; intros gs Hgs; simpl.
    - split; [done|]. by intros [?|?].
    - destruct (IH (group_insert (floor_min t) (Some x) gs)) as [H1 H2];
        [by apply group_insert_good|].
      split; [done|]. intros _. apply H2. left. apply group_insert_nonempty. }
  destruct (H [] ltac:(constructor)) as [H1 H2].
  split; [done|]. intros Hr. apply H2. by right.
Qed.

Lemma series_mean_present (t : Z) (vs : list (option Q)) :
  vs ≠ [] → Forall is_Some vs → is_Some (series_mean ((fun v => (t, v)) <$> vs)).
Proof.
  intros Hne Hall. unfold series_mean, series_count, dropna_series.
  destruct vs as [|v vs]; [done|].
  apply Forall_cons in Hall as [[x ->] _].
  rewrite fmap_cons, filter_cons_True by done.
  simpl length. destruct (Z.eqb_spec (Z.of_nat (S (length
    (filter (λ p : Z * option Q, isna p.2 = false) ((λ v, (t, v)) <$> vs))))) 0);
    [lia | by eexists].
Qed.

(** What the bucketizer returns: keys on minute marks, every value present. *)
Lemma bucketize_spec (rows : list (Z * Q)) :
  Forall (fun p => (∃ t, p.1 = floor_min t) ∧ is_Some p.2) (bucketize rows)
  ∧ (rows ≠ [] → bucketize rows ≠ []).
Proof.
  destruct (groupby_good rows) as [Hg Hne]. unfold bucketize, groupby_mean. split.
  - rewrite Forall_fmap. eapply Forall_impl; [exact Hg|].
    intros [k vs] (Hk & Hn & Hall). simpl in *. split; [done|].
    by apply series_mean_present.
  - intros Hr. specialize (Hne Hr).
    destruct (groupby (minute_keys rows) (power_vals rows)); done.
Qed.

Lemma series_get_present (s : list (Z * option Q)) (t : Z) :
  Forall (fun p => is_Some p.2) s → t ∈ index s → is_Some (series_get s t).
Proof.
  intros Hall Ht. unfold series_get.
  destruct (list_find (λ p : Z * option Q, p.1 = t) s) as [[i [t' v]]|] eqn:E.
  - apply list_find_Some in E as (Hi & _ & _).
    rewrite Forall_forall in Hall. apply (Hall (t', v)).
    by eapply list_elem_of_lookup_2.
  - apply list_find_None in E. unfold index in Ht.
    apply list_elem_of_fmap in Ht as ([t' v] & -> & Hin).
    rewrite Forall_forall in E. by destruct (E _ Hin).
Qed.

Lemma floor_min_span (a b : Z) :
  floor_min a ≤ floor_min b →
  0 ≤ (floor_min b - floor_min a) / minute
  ∧ floor_min a + (floor_min b - floor_min a) / minute * minute = floor_min b.
Proof.
  unfold floor_min. intros Hle.
  replace (b / minute * minute - a / minute * minute)
    with ((b / minute - a / minute) * minute) by lia.
  rewrite Z.div_mul by (unfold minute; lia).
  unfold minute in *. lia.
Qed.

(** The window of a non-empty bucketed series. *)
Lemma bucketize_window (rows : list (Z * Q)) :
  rows ≠ [] →
  ∃ start end_ v1 v2,
    index_min (index (bucketize rows)) = Some start
    ∧ index_max (index (bucketize rows)) = Some end_
    ∧ Z.of_nat (length (date_range start end_)) = (end_ - start) / minute + 1
    ∧ head (reindex (bucketize rows) (date_range start end_)) = Some (start, Some v1)
    ∧ last (reindex (bucketize rows) (date_range start end_)) = Some (end_, Some v2)
    ∧ aligned (reindex (bucketize rows) (date_range start end_)) start end_.
Proof.
  intros Hr. destruct (bucketize_spec rows) as [Hall Hne]. specialize (Hne Hr).
  assert (index (bucketize rows) ≠ []) as Hi
    by (unfold index; destruct (bucketize rows); done).
  destruct (index_min_spec _ Hi) as (start & Es & Hs & Hmin).
  destruct (index_max_spec _ Hi) as (end_ & Ee & He & Hmax).
  assert (Forall (fun p => is_Some p.2) (bucketize rows)) as Hp
    by (eapply Forall_impl; [exact Hall|]; by intros ? [_ ?]).
  destruct (series_get_present _ _ Hp Hs) as [v1 E1].
  destruct (series_get_present _ _ Hp He) as [v2 E2].
  assert (∃ a, start = floor_min a) as [a ->].
  { unfold index in Hs. apply list_elem_of_fmap in Hs as (p & -> & Hin).
    rewrite Forall_forall in Hall. by destruct (Hall p Hin). }
  assert (∃ b, end_ = floor_min b) as [b ->].
  { unfold index in He. apply list_elem_of_fmap in He as (p & -> & Hin).
    rewrite Forall_forall in Hall. by destruct (Hall p Hin). }
  destruct (floor_min_span a b (Hmin _ He)) as [Hn Hend].
  exists (floor_min a), (floor_min b), v1, v2.
  split; [done|]. split; [done|].
  rewrite length_date_range. split; [lia|].
  unfold reindex. split; [|split].
  - unfold date_range.
    replace (Z.to_nat ((floor_min b - floor_min a) / minute + 1))
      with (S (Z.to_nat ((floor_min b - floor_min a) / minute))) by lia.
    simpl. rewrite Z.add_0_r. by rewrite E1.
  - rewrite fmap_last.
    assert (last (date_range (floor_min a) (floor_min b)) = Some (floor_min b)) as ->.
    { rewrite last_lookup, length_date_range.
      rewrite date_range_lookup by (rewrite length_date_range; lia).
      f_equal. etrans; [|exact Hend]. f_equal. f_equal. lia. }
    simpl. by rewrite E2.
  - unfold aligned, index. rewrite <- list_fmap_compose. apply list_fmap_id.
Qed.

Lemma M_bind_run {A B} (m : M A) (f : A → M B) (h : gmap nat (list (string * list Cell))) :
  (m ≫= f) h = match m h with
               | (Ok a, h') => f a h'
               | (Raise e, h') => (Raise e, h')
               end.
Proof. reflexivity. Qed.

Lemma fresh_lookup (h : gmap nat (list (string * list Cell))) : h !! fresh (dom h) = None.
Proof. apply not_elem_of_dom, is_fresh. Qed.

Lemma subseteq_insert_fresh (h h' : gmap nat (list (string * list Cell)))
    (x : list (string * list Cell)) :
  h ⊆ h' → h ⊆ <[fresh (dom h') := x]> h'.
Proof.
  intros Hs. etrans; [exact Hs|]. apply insert_subseteq, fresh_lookup.
Qed.

Lemma subseteq_insert_new (h h' : gmap nat (list (string * list Cell))) (l : nat)
    (x : list (string * list Cell)) :
  h ⊆ h' → h !! l = None → h ⊆ <[l := x]> h'.
Proof.
  intros Hs Hl. apply map_subseteq_spec. intros i y Hi.
  rewrite lookup_insert_ne by congruence.
  by eapply lookup_weaken.
Qed.

(** The store after a run holds every object it held before, unchanged, and
    the run returns what the steps on frame values return. *)
Lemma compute_energy_pipeline (h : gmap nat (list (string * list Cell))) (df : nat)
    (frame : list (string * list Cell)) (timecol : string) (powercol : option string)
    (fill tz : string) (top_gaps : Z) :
  h !! df = Some frame →
  ∃ h', compute_energy df timecol powercol fill tz top_gaps h
        = (pipeline frame timecol powercol fill tz top_gaps, h')
      ∧ h ⊆ h'.
Proof.
  intros Hdf. unfold compute_energy, pipeline.
  rewrite M_bind_run. unfold load at 1. rewrite Hdf.
  case_bool_decide; [by exists h|].
  rewrite M_bind_run. unfold lift at 1.
  fold (resolve_powercol_of frame timecol powercol).
  destruct (resolve_powercol_of frame timecol powercol) as [pc|e]; [|by exists h].
  rewrite bind_Ok, M_bind_run. unfold lift at 1.
  destruct (getitem frame timecol) as [tcells|e]; [|by exists h].
  rewrite bind_Ok.
  destruct (forallb isna (to_datetime <$> tcells)); [by exists h|].
  rewrite M_bind_run. unfold copy. rewrite M_bind_run. unfold load at 1. rewrite Hdf.
  unfold alloc at 1.
  set (l1 := fresh (dom h)).
  assert (h !! l1 = None) as Hl1 by apply fresh_lookup.
  rewrite M_bind_run. unfold store_column at 1. rewrite lookup_insert_eq.
  rewrite insert_insert_eq.
  set (frame1 := setitem frame "_ts" _).
  rewrite M_bind_run. unfold load at 1. rewrite lookup_insert_eq.
  rewrite M_bind_run. unfold lift at 1.
  destruct (getitem frame1 pc) as [pcells|e];
    [|eexists; split; [reflexivity | by apply insert_subseteq]].
  rewrite bind_Ok, M_bind_run. unfold store_column at 1. rewrite lookup_insert_eq.
  rewrite insert_insert_eq.
  set (frame2 := setitem frame1 "_p" _).
  rewrite M_bind_run. unfold load at 1. rewrite lookup_insert_eq.
  rewrite M_bind_run. unfold alloc at 1.
  set (h2 := <[l1 := frame2]> h).
  assert (h ⊆ h2) as Hs2 by (by apply insert_subseteq).
  set (l2 := fresh (dom h2)).
  rewrite M_bind_run. unfold load at 1. rewrite lookup_insert_eq.
  rewrite M_bind_run. unfold alloc at 1.
  set (frame3 := dropna frame2 _).
  set (h3 := <[l2 := frame3]> h2).
  assert (h ⊆ h3) as Hs3 by (by apply subseteq_insert_fresh).
  set (l3 := fresh (dom h3)).
  rewrite M_bind_run. unfold load at 1. rewrite lookup_insert_eq.
  set (frame4 := sort_values frame3 _).
  set (h4 := <[l3 := frame4]> h3).
  assert (h ⊆ h4) as Hs4 by (by apply subseteq_insert_fresh).
  assert (h !! l3 = None) as Hl3.
  { destruct (h !! l3) eqn:E; [|done].
    eapply lookup_weaken in E; [|exact Hs3].
    pose proof (fresh_lookup h3) as Hf. fold l3 in Hf. congruence. }
  destruct (empty frame4); [by exists h4|].
  rewrite M_bind_run. unfold lift at 1.
  destruct (getitem frame4 "_ts") as [ts|e]; [|by exists h4].
  rewrite bind_Ok, M_bind_run. unfold store_column at 1.
  unfold h4 at 1. rewrite lookup_insert_eq.
  set (frame5 := setitem frame4 "_minute" _).
  set (h5 := <[l3 := frame5]> h4).
  assert (h ⊆ h5) as Hs5 by (by apply subseteq_insert_new).
  rewrite M_bind_run. unfold load at 1. unfold h5 at 1. rewrite lookup_insert_eq.
  rewrite M_bind_run. unfold lift at 1.
  destruct (getitem frame5 "_minute") as [keys|e]; [|by exists h5].
  rewrite bind_Ok, M_bind_run. unfold lift at 1.
  destruct (getitem frame5 "_p") as [vals|e]; [|by exists h5].
  rewrite bind_Ok. unfold lift. by exists h5.
Qed.

(** ** Frames *)

Lemma getitem_cons (c' c : string) (cells : list Cell) (df : list (string * list Cell)) :
  getitem ((c', cells) :: df) c = if decide (c' = c) then Ok cells else getitem df c.
Proof.
  unfold getitem. simpl. destruct (decide (c' = c)) as [->|Hne]; [done|].
  destruct (list_find (λ p : string * list Cell, p.1 = c) df) as [[i [c'' x]]|]; done.
Qed.

Lemma getitem_nil (c : string) : getitem [] c = Raise KeyError.
Proof. done. Qed.

Lemma getitem_setitem_eq (df : list (string * list Cell)) (c : string) (cells : list Cell) :
  getitem (setitem df c cells) c = Ok cells.
Proof.
  induction df as [|[c' old] df IH]; simpl.
  - by rewrite getitem_cons, decide_True.
  - case_bool_decide as E.
    + by rewrite getitem_cons, decide_True.
    + by rewrite getitem_cons, decide_False.
Qed.

Lemma getitem_setitem_ne (df : list (string * list Cell)) (c c' : string) (cells : list Cell) :
  c ≠ c' → getitem (setitem df c cells) c' = getitem df c'.
Proof.
  intros Hne. induction df as [|[c'' old] df IH]; simpl.
  - by rewrite getitem_cons, decide_False.
  - case_bool_decide as E.
    + subst c''. by rewrite !getitem_cons, !decide_False.
    + rewrite !getitem_cons. by destruct (decide (c'' = c')).
Qed.

Lemma getitem_columns (df : list (string * list Cell)) (c : string) :
  c ∈ columns df → ∃ cells, getitem df c = Ok cells ∧ (c, cells) ∈ df.
Proof.
  unfold columns. induction df as [|[c' old] df IH]; simpl.
  - by intros ?%elem_of_nil.
  - rewrite getitem_cons. intros Hin. destruct (decide (c' = c)) as [->|Hne].
    + exists old. split; [done | left].
    + apply elem_of_cons in Hin as [Heq | Hin]; [congruence|].
      destruct (IH Hin) as (cells & E & Hc). exists cells. split; [done | by right].
Qed.

Lemma getitem_elem (df : list (string * list Cell)) (c : string) (cells : list Cell) :
  getitem df c = Ok cells → (c, cells) ∈ df.
Proof.
  induction df as [|[c' old] df IH]; [done|].
  rewrite getitem_cons. destruct (decide (c' = c)) as [->|Hne].
  - intros [= ->]. left.
  - intros E. right. by apply IH.
Qed.

Lemma wf_getitem (n : nat) (df : list (string * list Cell)) (c : string) (cells : list Cell) :
  wf_frame n df → getitem df c = Ok cells → length cells = n.
Proof.
  intros Hwf E%getitem_elem. unfold wf_frame in Hwf. rewrite Forall_forall in Hwf.
  by apply (Hwf _ E).
Qed.

Lemma wf_setitem (n : nat) (df : list (string * list Cell)) (c : string) (cells : list Cell) :
  wf_frame n df → length cells = n → wf_frame n (setitem df c cells).
Proof.
  intros Hwf Hlen. induction Hwf as [|[c' old] df Hc Hwf IH]; simpl.
  - by repeat constructor.
  - case_bool_decide; constructor; done.
Qed.

Lemma setitem_nonempty (df : list (string * list Cell)) (c : string) (cells : list Cell) :
  setitem df c cells ≠ [].
Proof. destruct df as [|[c' old] df]; simpl; [done|]. by case_bool_decide. Qed.

Lemma wf_nrows (n : nat) (df : list (string * list Cell)) :
  wf_frame n df → df ≠ [] → nrows df = n.
Proof. intros Hwf Hne. destruct Hwf as [|[c cells] df Hc _]; done. Qed.

Lemma length_omap_lookup {A} (cells : list A) (rows : list nat) :
  Forall (fun i => (i < length cells)%nat) rows →
  length (omap (fun i => cells !! i) rows) = length rows.
Proof.
  induction 1 as [|i rows Hi _ IH]; simpl; [done|].
  destruct (lookup_lt_is_Some_2 cells i Hi) as [x ->]. simpl. f_equal. exact IH.
Qed.

Lemma wf_take_rows (n : nat) (rows : list nat) (df : list (string * list Cell)) :
  wf_frame n df → Forall (fun i => (i < n)%nat) rows →
  wf_frame (length rows) (take_rows rows df).
Proof.
  intros Hwf Hrows. unfold wf_frame, take_rows. rewrite Forall_fmap.
  eapply Forall_impl; [exact Hwf|]. intros [c cells] Hc. simpl in *.
  apply length_omap_lookup. by rewrite Hc.
Qed.

Lemma take_rows_nonempty (rows : list nat) (df : list (string * list Cell)) :
  df ≠ [] → take_rows rows df ≠ [].
Proof. by destruct df. Qed.

Lemma getitem_take_rows (rows : list nat) (df : list (string * list Cell)) (c : string) :
  getitem (take_rows rows df) c =
  match getitem df c with
  | Ok cells => Ok (omap (fun i => cells !! i) rows)
  | Raise e => Raise e
  end.
Proof.
  induction df as [|[c' old] df IH]; [done|].
  change (take_rows rows ((c', old) :: df))
    with ((c', omap (fun i => old !! i) rows) :: take_rows rows df).
  rewrite !getitem_cons. by destruct (decide (c' = c)).
Qed.

Lemma insert_row_perm (key : nat → Z) (i : nat) (l : list nat) :
  insert_row key i l ≡ₚ i :: l.
Proof.
  induction l as [|j l IH]; simpl; [done|].
  destruct (key i <=? key j); [done|]. rewrite IH. apply perm_swap.
Qed.

Lemma sort_rows_perm (key : nat → Z) (l : list nat) :
  foldr (insert_row key) [] l ≡ₚ l.
Proof.
  induction l as [|i l IH]; simpl; [done|]. by rewrite insert_row_perm, IH.
Qed.

Lemma omap_lookup_Forall2 {A B} (P : A → B → Prop) (a : list A) (b : list B)
    (rows : list nat) :
  length a = length b →
  Forall (fun i => (i < length a)%nat) rows →
  (∀ i x y, i ∈ rows → a !! i = Some x → b !! i = Some y → P x y) →
  Forall2 P (omap (fun i => a !! i) rows) (omap (fun i => b !! i) rows).
Proof.
  intros Hlen Hrows. induction Hrows as [|i rows Hi _ IH]; intros HP; [constructor|].
  destruct (lookup_lt_is_Some_2 a i Hi) as [x Ex].
  destruct (lookup_lt_is_Some_2 b i ltac:(lia)) as [y Ey].
  simpl. rewrite Ex, Ey. simpl. constructor.
  - apply (HP i); [left | done..].
  - apply IH. intros j x' y' Hj. apply HP. by right.
Qed.

Lemma parsed_pairs_rows (t : list (option Z)) (p : list (option Q)) (ts ps : list Cell) :
  Forall2 (parsed_pair t p) ts ps →
  ∃ rows : list (Z * Q),
    length rows = length ts
    ∧ (fun c => floor_min <$> time_of c) <$> ts = minute_keys rows
    ∧ float_of <$> ps = power_vals rows
    ∧ Forall (fun r => ∃ i, t !! i = Some (Some r.1) ∧ p !! i = Some (Some r.2)) rows.
Proof.
  induction 1 as [|x y ts ps (i & a & b & -> & -> & Ha & Hb) _ (rows & Hl & Hk & Hv & Hr)].
  - by exists [].
  - exists ((a, b) :: rows). split; [simpl; by rewrite Hl|].
    unfold minute_keys, power_vals in *. rewrite !fmap_cons, Hk, Hv.
    split; [done|]. split; [done|]. constructor; [|done]. by exists i.
Qed.

Lemma tz_convert_id (tz : string) (t : list (option Z)) : tz_convert tz <$> t = t.
Proof. apply list_fmap_id. Qed.


(** ** The run from the per-minute series on *)

Lemma head_first_present (s : list (Z * option Q)) (t : Z) (v : Q) :
  head s = Some (t, Some v) → first_present s.
Proof. destruct s as [|p s]; [done|]. intros [= ->]. by exists t, v, s. Qed.

Lemma fill_series_nonempty (fill : string) (s : list (Z * option Q)) :
  first_present s → fill_series fill s ≠ [].
Proof.
  intros Hf. unfold fill_series.
  case_bool_decide; [|case_bool_decide].
  - destruct (ffill_first_present s Hf) as [_ (t & v & s' & ->)]. done.
  - destruct (interpolate_first_present s Hf) as [_ Hf'].
    destruct (ffill_first_present _ Hf') as [_ (t & v & s' & ->)]. done.
  - destruct Hf as (t & v & s' & ->). unfold dropna_series.
    by rewrite filter_cons_True.
Qed.

Lemma build_gap_report_aligned (series : list (Z * option Q)) (start end_ top_n : Z) :
  aligned series start end_ →
  ∃ r, build_gap_report (date_range start end_) series top_n = Ok r.
Proof.
  intros Hal. destruct (find_gaps_aligned _ _ _ Hal) as (R & _ & E).
  destruct (build_gap_report_unfold _ _ top_n _ E) as (r & Er & _). by exists r.
Qed.

(** With at least one surviving row the rest of the run succeeds. *)
Lemma integrate_bucketize (rows : list (Z * Q)) (pc fill : string) (top_gaps : Z) :
  rows ≠ [] →
  ∃ start end_ v1 v2 gr,
    index_min (index (bucketize rows)) = Some start
    ∧ index_max (index (bucketize rows)) = Some end_
    ∧ Z.of_nat (length (date_range start end_)) = (end_ - start) / minute + 1
    ∧ head (reindex (bucketize rows) (date_range start end_)) = Some (start, Some v1)
    ∧ last (reindex (bucketize rows) (date_range start end_)) = Some (end_, Some v2)
    ∧ aligned (reindex (bucketize rows) (date_range start end_)) start end_
    ∧ build_gap_report (date_range start end_)
        (reindex (bucketize rows) (date_range start end_)) top_gaps = Ok gr
    ∧ integrate (bucketize rows) pc fill top_gaps =
        Ok {| start := start;
              end_ := end_;
              minutes_total := Z.of_nat (length (date_range start end_));
              powercol := pc;
              avg_watts :=
                series_mean (fill_series fill (reindex (bucketize rows) (date_range start end_)));
              total_kwh :=
                total_kwh_of (fill_series fill (reindex (bucketize rows) (date_range start end_)));
              gap_report := gr |}.
Proof.
  intros Hr.
  destruct (bucketize_window rows Hr)
    as (start & end_ & v1 & v2 & Es & Ee & Hlen & Hh & Hl & Hal).
  destruct (build_gap_report_aligned _ _ _ top_gaps Hal) as [gr Eg].
  exists start, end_, v1, v2, gr. do 7 (split; [done|]).
  unfold integrate. rewrite Es, Ee, Eg, bind_Ok.
  rewrite bool_decide_false; [done|].
  apply fill_series_nonempty. by eapply head_first_present.
Qed.

(** ** The run on frame values *)

Lemma row_complete_spec (df : list (string * list Cell)) (t : list (option Z))
    (p : list (option Q)) (i : nat) :
  getitem df "_ts" = Ok (Time <$> t) →
  getitem df "_p" = Ok (Float <$> p) →
  row_complete df ["_ts"; "_p"]%string i = true
  ↔ (∃ a, t !! i = Some (Some a)) ∧ (∃ b, p !! i = Some (Some b)).
Proof.
  intros Et Ep. unfold row_complete. simpl. rewrite Et, Ep, !list_lookup_fmap.
  destruct (t !! i) as [[a|]|]; destruct (p !! i) as [[b|]|]; simpl;
    split; try done; try (intros [[? ?] [? ?]]; done); eauto.
Qed.

Lemma pipeline_run (n : nat) (frame : list (string * list Cell)) (timecol : string)
    (powercol : option string) (fill tz : string) (top_gaps : Z)
    (pc : string) (tcells pcells : list Cell) :
  wf_frame n frame →
  timecol ∈ columns frame →
  resolve_powercol_of frame timecol powercol = Ok pc →
  getitem frame timecol = Ok tcells →
  getitem (setitem frame "_ts" (Time <$> (to_datetime <$> tcells))) pc = Ok pcells →
  let t := to_datetime <$> tcells in
  let p := to_numeric <$> pcells in
  (forallb isna t = true
     ∧ pipeline frame timecol powercol fill tz top_gaps = Raise AllTimestampsFailed)
  ∨ (forallb isna t = false
     ∧ (∀ i a b, t !! i = Some (Some a) → p !! i = Some (Some b) → False)
     ∧ pipeline frame timecol powercol fill tz top_gaps = Raise NoValidRows)
  ∨ (forallb isna t = false
     ∧ ∃ rows : list (Z * Q),
         rows ≠ []
         ∧ Forall (fun r => ∃ i, t !! i = Some (Some r.1) ∧ p !! i = Some (Some r.2)) rows
         ∧ pipeline frame timecol powercol fill tz top_gaps
           = integrate (bucketize rows) pc fill top_gaps).
Proof.
  intros Hwf Htc Hpc Et Ep. cbv zeta.
  set (t := to_datetime <$> tcells) in *. set (p := to_numeric <$> pcells).
  unfold pipeline.
  rewrite bool_decide_false by (by intros []).
  rewrite Hpc, bind_Ok, Et, bind_Ok. fold t.
  destruct (forallb isna t) eqn:Hall; [by left|]. right.
  rewrite tz_convert_id, Ep, bind_Ok. fold p.
  assert (length t = n) as Hlt
    by (unfold t; rewrite length_fmap; by eapply wf_getitem).
  set (frame1 := setitem frame "_ts" (Time <$> t)) in *.
  assert (wf_frame n frame1) as Hwf1
    by (apply wf_setitem; [done | by rewrite length_fmap]).
  assert (length p = n) as Hlp
    by (unfold p; rewrite length_fmap; by eapply wf_getitem).
  set (frame2 := setitem frame1 "_p" (Float <$> p)).
  assert (wf_frame n frame2) as Hwf2
    by (apply wf_setitem; [done | by rewrite length_fmap]).
  assert (getitem frame2 "_ts" = Ok (Time <$> t)) as Ets2.
  { unfold frame2. rewrite getitem_setitem_ne by done. apply getitem_setitem_eq. }
  assert (getitem frame2 "_p" = Ok (Float <$> p)) as Ep2 by apply getitem_setitem_eq.
  assert (nrows frame2 = n) as Hn2 by (eapply wf_nrows; [done | apply setitem_nonempty]).
  unfold dropna. rewrite Hn2.
  set (kept := filter (λ i, row_complete frame2 ["_ts"; "_p"]%string i = true) (seq 0 n)).
  assert (Forall (fun i => (i < n)%nat) kept) as Hkept.
  { apply Forall_forall. intros i [_ Hi%elem_of_seq]%list_elem_of_filter. lia. }
  assert (∀ i, i ∈ kept ↔ (∃ a, t !! i = Some (Some a)) ∧ (∃ b, p !! i = Some (Some b)))
    as Hin.
  { intros i. unfold kept. rewrite list_elem_of_filter, (row_complete_spec _ t p) by done.
    split; [tauto|]. intros [[a Ha] Hb]. split; [eauto|].
    apply elem_of_seq. apply lookup_lt_Some in Ha. lia. }
  set (frame3 := take_rows kept frame2).
  assert (wf_frame (length kept) frame3) as Hwf3 by (by eapply wf_take_rows).
  assert (frame3 ≠ []) as Hne3 by apply take_rows_nonempty, setitem_nonempty.
  assert (getitem frame3 "_ts" = Ok (omap (fun i => (Time <$> t) !! i) kept)) as Ets3
    by (unfold frame3; by rewrite getitem_take_rows, Ets2).
  assert (getitem frame3 "_p" = Ok (omap (fun i => (Float <$> p) !! i) kept)) as Ep3
    by (unfold frame3; by rewrite getitem_take_rows, Ep2).
  set (ts3 := omap (fun i => (Time <$> t) !! i) kept) in *.
  set (p3 := omap (fun i => (Float <$> p) !! i) kept) in *.
  unfold sort_values. rewrite Ets3, (wf_nrows _ _ Hwf3 Hne3).
  set (order := foldr (insert_row _) [] (seq 0 (length kept))).
  assert (order ≡ₚ seq 0 (length kept)) as Hperm by apply sort_rows_perm.
  assert (Forall (fun i => (i < length kept)%nat) order) as Horder.
  { rewrite Hperm. apply Forall_forall. intros i Hi%elem_of_seq. lia. }
  assert (length order = length kept) as Hlo by (by rewrite Hperm, length_seq).
  set (frame4 := take_rows order frame3).
  assert (wf_frame (length kept) frame4) as Hwf4
    by (rewrite <- Hlo; by eapply wf_take_rows).
  assert (frame4 ≠ []) as Hne4 by (by apply take_rows_nonempty).
  assert (empty frame4 = (length kept =? 0)%nat) as ->.
  { unfold empty. rewrite bool_decide_false by done.
    by rewrite (wf_nrows _ _ Hwf4 Hne4). }
  destruct (Nat.eqb_spec (length kept) 0) as [Hz|Hnz].
  { left. split; [done|]. split; [|done].
    intros i a b Ha Hb. apply length_zero_iff_nil in Hz.
    assert (i ∈ kept) as Hi by (apply Hin; eauto).
    rewrite Hz in Hi. by apply elem_of_nil in Hi. }
  right. split; [done|].
  assert (Forall2 (parsed_pair t p) ts3 p3) as H3.
  { apply omap_lookup_Forall2.
    - by rewrite !length_fmap, Hlt, Hlp.
    - by rewrite length_fmap, Hlt.
    - intros i x y Hi Hx Hy. apply Hin in Hi as [[a Ha] [b Hb]].
      rewrite list_lookup_fmap, Ha in Hx. rewrite list_lookup_fmap, Hb in Hy.
      simpl in Hx, Hy. injection Hx as <-. injection Hy as <-. by exists i, a, b. }
  assert (length ts3 = length kept) as Hl3
    by (apply length_omap_lookup; by rewrite length_fmap, Hlt).
  assert (length p3 = length kept) as Hl3'
    by (apply length_omap_lookup; by rewrite length_fmap, Hlp).
  assert (getitem frame4 "_ts" = Ok (omap (fun i => ts3 !! i) order)) as Ets4
    by (unfold frame4; by rewrite getitem_take_rows, Ets3).
  assert (getitem frame4 "_p" = Ok (omap (fun i => p3 !! i) order)) as Ep4
    by (unfold frame4; by rewrite getitem_take_rows, Ep3).
  assert (Forall2 (parsed_pair t p) (omap (fun i => ts3 !! i) order)
            (omap (fun i => p3 !! i) order)) as H4.
  { apply omap_lookup_Forall2.
    - by rewrite Hl3, Hl3'.
    - by rewrite Hl3.
    - intros i x y _ Hx Hy. by eapply Forall2_lookup_lr. }
  rewrite Ets4, bind_Ok, getitem_setitem_eq, bind_Ok.
  rewrite getitem_setitem_ne, Ep4, bind_Ok by done.
  destruct (parsed_pairs_rows _ _ _ _ H4) as (rows & Hlr & Hk & Hv & Hrows).
  exists rows. split.
  { intros ->. simpl in Hlr. rewrite length_omap_lookup in Hlr by (by rewrite Hl3). lia. }
  split; [done|].
  unfold bucketize. rewrite <- Hk, <- Hv, <- list_fmap_compose. done.
Qed.

(** ** Resolving the power column *)

Lemma best_candidate_elem (x : Z * string) (l : list (Z * string)) :
  best_candidate x l ∈ x :: l.
Proof.
  unfold best_candidate. revert x. induction l as [|y l IH]; intros x; simpl; [left|].
  destruct (candidate_lt x y).
  - right. apply IH.
  - specialize (IH x). apply elem_of_cons in IH as [-> | IH]; [left | by do 2 right].
Qed.

Lemma detect_power_col_spec (df : list (string * list Cell)) (timecol : string) :
  match detect_power_col df timecol with
  | Ok c => c ∈ columns df
  | Raise e => e = NoOtherColumns ∨ e = AutoDetectFailed
  end.
Proof.
  unfold detect_power_col.
  set (cols := filter (λ c, c ≠ timecol) (columns df)).
  assert (∀ c, c ∈ cols → c ∈ columns df) as Hcols
    by (intros c [_ ?]%list_elem_of_filter; done).
  case_bool_decide; [by left|].
  destruct (omap _ PREFERRED_POWER_COLS) as [|c l] eqn:E.
  - match goal with |- context [omap ?f cols] => destruct (omap f cols) as [|x l] eqn:Ec end;
      [by right|].
    pose proof (best_candidate_elem x l) as Hb. rewrite <- Ec in Hb.
    apply list_elem_of_omap in Hb as (c & Hc & Hf).
    apply Hcols.
    destruct (bool_decide _); [done|].
    destruct (getitem df c); [|done].
    destruct (_ =? 0); [done|]. injection Hf as <-. done.
  - assert (c ∈ c :: l) as Hc by left. rewrite <- E in Hc.
    apply list_elem_of_omap in Hc as (pref & _ & Hh).
    apply Hcols. apply head_Some_elem_of in Hh.
    by apply list_elem_of_filter in Hh as [_ ?].
Qed.

Lemma resolve_powercol_spec (df : list (string * list Cell)) (timecol : string)
    (powercol : option string) :
  match resolve_powercol_of df timecol powercol with
  | Ok c => c ∈ columns df
  | Raise e => e = NoOtherColumns ∨ e = AutoDetectFailed ∨ e = MissingPowerColumn
  end.
Proof.
  destruct powercol as [c|]; simpl.
  - case_bool_decide as H; simpl; [tauto | done].
  - pose proof (detect_power_col_spec df timecol) as H.
    destruct (detect_power_col df timecol); [done | tauto].
Qed.

Lemma getitem_working_copy (frame : list (string * list Cell)) (cells : list Cell)
    (pc : string) :
  pc ∈ columns frame → ∃ pcells, getitem (setitem frame "_ts" cells) pc = Ok pcells.
Proof.
  intros Hpc. destruct (decide ("_ts"%string = pc)) as [<-|Hne].
  - exists cells. apply getitem_setitem_eq.
  - rewrite getitem_setitem_ne by done.
    destruct (getitem_columns _ _ Hpc) as (pcells & E & _). by exists pcells.
Qed.

(** ** Checks of the model on small inputs *)

Example duplicate_minute_average :
  ∃ v, bucketize [(10, (100 # 1)%Q); (minute + 3, (50 # 1)%Q); (20, (300 # 1)%Q)]
       = [(0, Some v); (minute, Some (50 # 1)%Q)]
     ∧ (v == 200 # 1)%Q.
Proof. eexists. split; [vm_compute; reflexivity|]. vm_compute. reflexivity. Qed.

Example interpolate_line :
  Forall2 (fun p q => p.1 = q.1 ∧ ∃ x y, p.2 = Some x ∧ q.2 = Some y ∧ (x == y)%Q)
    (interpolate_time
       [(0, Some (100 # 1)%Q); (minute, None); (2 * minute, None); (3 * minute, Some (400 # 1)%Q);
        (4 * minute, None)])
    [(0, Some (100 # 1)%Q); (minute, Some (200 # 1)%Q); (2 * minute, Some (300 # 1)%Q);
     (3 * minute, Some (400 # 1)%Q); (4 * minute, Some (400 # 1)%Q)].
Proof.
  repeat constructor; simpl; eexists _, _; (split; [reflexivity|]);
    (split; [reflexivity|]); vm_compute; reflexivity.
Qed.

Example leading_gap_stays :
  ffill (interpolate_time [(0, None); (minute, Some (7 # 1)%Q); (2 * minute, None)])
  = [(0, None); (minute, Some (7 # 1)%Q); (2 * minute, Some (7 # 1)%Q)].
Proof. reflexivity. Qed.

Example negative_top_n_drops_from_the_end :
  slice_to (-1) [(0, 0, 3); (5, 5, 2); (9, 9, 1)] = [(0, 0, 3); (5, 5, 2)].
Proof. reflexivity. Qed.

(** ** The claims of the specification *)






(** C4. For an aligned series whose first entry holds a value, the fill
    step leaves no missing value under any policy; under carry-forward
    ("locf") and interpolation ("interp") the index of the filled series is
    the timeline itself, and under the drop policy (any other selector) it
    is a sub-sequence of the timeline. *)
Theorem fill_totality (series : list (Z * option Q)) (start end_ : Z) (fill : string) :
  aligned series start end_ →
  first_present series →
  no_missing (fill_series fill series)
  ∧ (fill = "locf"%string ∨ fill = "interp"%string →
       index (fill_series fill series) = date_range start end_)
  ∧ index (fill_series fill series) `sublist_of` date_range start end_
  ∧ (∀ t, t ∈ index (fill_series fill series) → t ∈ date_range start end_).
Proof.
  intros Hal Hf. unfold aligned in Hal. unfold fill_series.
  assert (∀ s, index s = date_range start end_ →
            index s `sublist_of` date_range start end_
            ∧ ∀ t, t ∈ index s → t ∈ date_range start end_) as Heq.
  { intros s ->. done. }
  case_bool_decide as H1; [|case_bool_decide as H2].
  - assert (index (ffill series) = date_range start end_) as Hi
      by (unfold ffill; by rewrite index_ffill_from).
    split; [by apply ffill_first_present|]. split; [done|]. by apply Heq.
  - assert (index (ffill (interpolate_time series)) = date_range start end_) as Hi
      by (unfold ffill, interpolate_time; by rewrite index_ffill_from, index_interpolate_from).
    split; [by apply ffill_first_present, interpolate_first_present|].
    split; [done|]. by apply Heq.
  - split; [apply dropna_series_no_missing|].
    split; [intros [?|?]; done|].
    rewrite <- Hal. split; [apply index_dropna_sublist|].
    intros t Ht. eapply elem_of_sublist; [done | apply index_dropna_sublist].
Qed.

Lemma fill_totality_witness :
  aligned gappy_series 0 (9 * minute)
  ∧ first_present gappy_series
  ∧ no_missing (fill_series "locf" gappy_series)
  ∧ index (fill_series "locf" gappy_series) = date_range 0 (9 * minute).
Proof.
  assert (aligned gappy_series 0 (9 * minute)) as Hal by reflexivity.
  assert (first_present gappy_series) as Hf by (by exists 0, (120 # 1)%Q, (tail gappy_series)).
  split; [done|]. split; [done|].
  destruct (fill_totality gappy_series 0 (9 * minute) "locf" Hal Hf) as (H1 & H2 & _).
  split; [done|]. apply H2. by left.
Defined.

(** C9. [compute_energy] changes no object the store held when it was
    called: whether it returns or raises, the store afterwards extends the
    store before, so the frame behind the caller's reference is the frame the
    caller passed; the working columns go to copies. *)
Theorem caller_frame_unchanged (h : gmap nat (list (string * list Cell))) (df : nat)
    (timecol : string) (powercol : option string) (fill tz : string) (top_gaps : Z) :
  h ⊆ (compute_energy df timecol powercol fill tz top_gaps h).2
  ∧ (compute_energy df timecol powercol fill tz top_gaps h).2 !! df = h !! df.
Proof.
  destruct (h !! df) as [frame|] eqn:Hdf.
  - destruct (compute_energy_pipeline h df frame timecol powercol fill tz top_gaps Hdf)
      as (h' & -> & Hs).
    simpl. split; [done|]. by eapply lookup_weaken.
  - unfold compute_energy. rewrite M_bind_run. unfold load. rewrite Hdf. done.
Qed.


(** C3. For an aligned series the gaps that [build_gap_report] finds cover
    exactly the missing minutes of the timeline, lie strictly one after the
    other, and their lengths add up to [minutes_missing]; on the ten-minute
    timeline with values at minutes 0, 1, 2, 7, 8, 9 there is one gap, from
    minute 3 to minute 6, of length 4, and the missing percentage is 40. *)
Theorem gaps_partition_missing :
  (∀ (series : list (Z * option Q)) (start end_ top_n : Z),
      aligned series start end_ →
      ∃ gaps r,
        find_gaps (isna <$> values series) (date_range start end_) = Ok gaps
        ∧ build_gap_report (date_range start end_) series top_n = Ok r
        ∧ gap_count r = Z.of_nat (length gaps)
        ∧ (∀ t v, (t, v) ∈ series →
             v = None ↔ ∃ g, g ∈ gaps ∧ gap_start g ≤ t ≤ gap_end g)
        ∧ (∀ (a b : nat) ga gb, (a < b)%nat →
             gaps !! a = Some ga → gaps !! b = Some gb → gap_end ga < gap_start gb)
        ∧ sum_gap_len gaps = minutes_missing r)
  ∧ (∃ r, build_gap_report (date_range 0 (9 * minute)) gappy_series 10 = Ok r
        ∧ find_gaps (isna <$> values gappy_series) (date_range 0 (9 * minute))
          = Ok [(3 * minute, 6 * minute, 4)]
        ∧ gap_count r = 1
        ∧ largest_gaps r = [(3 * minute, 6 * minute, 4)]
        ∧ minutes_missing r = 4
        ∧ (missing_pct r == 40)%Q).
Proof.
  split.
  - intros series start end_ top_n Hal.
    destruct (find_gaps_aligned _ _ _ Hal) as (R & HR & E).
    destruct (build_gap_report_unfold _ _ top_n _ E) as (r & Er & Hc & Hm & _).
    exists (gap_of_run start <$> R), r.
    split; [done|]. split; [done|]. split; [done|].
    split; [by apply gaps_cover_missing with end_|].
    split; [by eapply gaps_disjoint|].
    rewrite Hm, sum_gap_len_of_runs.
    + by rewrite (Runs_length _ _ _ HR).
    + eapply Forall_impl; [exact (Runs_bounds _ _ _ HR)|]. simpl. intros; lia.
  - eexists. split; [vm_compute; reflexivity|].
    repeat split; vm_compute; congruence.
Qed.

Lemma gaps_partition_missing_witness :
  aligned gappy_series 0 (9 * minute)
  ∧ ∃ gaps r,
      find_gaps (isna <$> values gappy_series) (date_range 0 (9 * minute)) = Ok gaps
      ∧ build_gap_report (date_range 0 (9 * minute)) gappy_series 10 = Ok r
      ∧ sum_gap_len gaps = minutes_missing r.
Proof.
  split; [reflexivity|].
  destruct (proj1 gaps_partition_missing gappy_series 0 (9 * minute) 10 eq_refl)
    as (gaps & r & H1 & H2 & _ & _ & _ & H6).
  exists gaps, r. auto.
Defined.

(** C10. Every gap triple that [build_gap_report] records for an aligned
    series has length at least 1, ends (length - 1) minutes after it starts,
    and starts and ends on keys of the timeline; the reported largest gaps
    are among these triples. *)
Theorem gap_triples_consistent (series : list (Z * option Q)) (start end_ top_n : Z) :
  aligned series start end_ →
  ∃ gaps r,
    find_gaps (isna <$> values series) (date_range start end_) = Ok gaps
    ∧ build_gap_report (date_range start end_) series top_n = Ok r
    ∧ largest_gaps r ⊆ gaps
    ∧ ∀ g, g ∈ gaps →
        1 ≤ gap_len g
        ∧ gap_end g = gap_start g + (gap_len g - 1) * minute
        ∧ gap_start g ∈ date_range start end_
        ∧ gap_end g ∈ date_range start end_.
Proof.
  intros Hal.
  destruct (find_gaps_aligned _ _ _ Hal) as (R & HR & E).
  destruct (build_gap_report_unfold _ _ top_n _ E) as (r & Er & _ & _ & _ & _ & Hl).
  exists (gap_of_run start <$> R), r.
  split; [done|]. split; [done|]. split.
  - rewrite Hl. intros g Hg. rewrite <- (sorted_desc_perm (gap_of_run start <$> R)).
    unfold slice_to in Hg. destruct (0 <=? top_n); by apply elem_of_take in Hg as (? & ?%list_elem_of_lookup_2 & _).
  - by apply (gap_of_run_consistent series start end_ R).
Qed.

Lemma gap_triples_consistent_witness :
  aligned gappy_series 0 (9 * minute)
  ∧ ∃ gaps r,
    find_gaps (isna <$> values gappy_series) (date_range 0 (9 * minute)) = Ok gaps
    ∧ build_gap_report (date_range 0 (9 * minute)) gappy_series 10 = Ok r
    ∧ largest_gaps r ⊆ gaps
    ∧ ∀ g, g ∈ gaps →
        1 ≤ gap_len g
        ∧ gap_end g = gap_start g + (gap_len g - 1) * minute
        ∧ gap_start g ∈ date_range 0 (9 * minute)
        ∧ gap_end g ∈ date_range 0 (9 * minute).
Proof.
  split; [reflexivity|].
  apply (gap_triples_consistent gappy_series 0 (9 * minute) 10). reflexivity.
Defined.



(** C5, as amended. Every gap of at most 10^9 minutes is claimed by exactly
    one of the four length buckets; when no gap is longer than that, the
    bucket counts add up to [gap_count] and the bucket minutes add up to
    [minutes_missing]. *)
Theorem buckets_complete_up_to_bound (full_idx : list Z) (series : list (Z * option Q))
    (top_n : Z) :
  length full_idx = length series →
  ∃ gaps r,
    find_gaps (isna <$> values series) full_idx = Ok gaps
    ∧ build_gap_report full_idx series top_n = Ok r
    ∧ (∀ g, g ∈ gaps → gap_len g ≤ 10 ^ 9 →
         ∃ b, b ∈ buckets ∧ claims b (gap_len g)
            ∧ ∀ b', b' ∈ buckets → claims b' (gap_len g) → b' = b)
    ∧ ((∀ g, g ∈ gaps → gap_len g ≤ 10 ^ 9) →
         dict_sum (bucket_counts r) = gap_count r
         ∧ dict_sum (bucket_minutes r) = sum_gap_len gaps
         ∧ sum_gap_len gaps = minutes_missing r).
Proof.
  intros Hlen.
  destruct (find_gaps_runs (isna <$> values series) full_idx) as (R & HR & E);
    [rewrite length_mask; lia|].
  destruct (build_gap_report_unfold _ _ top_n _ E) as (r & Er & Hc & Hm & Hb1 & Hb2 & _).
  exists (gap_at full_idx <$> R), r.
  split; [done|]. split; [done|].
  assert (∀ g, g ∈ gap_at full_idx <$> R → 1 ≤ gap_len g) as Hpos.
  { intros g [x [-> Hx]]%list_elem_of_fmap.
    pose proof (Runs_bounds _ _ _ HR) as Hb. rewrite Forall_forall in Hb.
    specialize (Hb x Hx). unfold gap_len, gap_at. simpl. lia. }
  split.
  - intros g Hg Hle. apply claimed_once. split; [by apply Hpos | done].
  - intros Hall.
    destruct (bucket_fold_sums (gap_at full_idx <$> R) (zero_buckets, zero_buckets))
      as [E1 E2]; [|apply has_keys_zero..|].
    { apply Forall_forall. intros g Hg. split; [by apply Hpos | by apply Hall]. }
    cbn [fst snd] in E1, E2. rewrite dict_sum_zero in E1, E2.
    rewrite Hb1, Hb2, Hc, Hm. unfold bucket_all.
    rewrite E1, E2, sum_gap_len_runs, (Runs_length _ _ _ HR). done.
Qed.

Lemma buckets_complete_up_to_bound_witness :
  length (date_range 0 (9 * minute)) = length gappy_series
  ∧ ∃ gaps r,
    find_gaps (isna <$> values gappy_series) (date_range 0 (9 * minute)) = Ok gaps
    ∧ build_gap_report (date_range 0 (9 * minute)) gappy_series 10 = Ok r
    ∧ dict_sum (bucket_counts r) = gap_count r
    ∧ dict_sum (bucket_minutes r) = minutes_missing r.
Proof.
  split; [reflexivity|].
  destruct (buckets_complete_up_to_bound (date_range 0 (9 * minute)) gappy_series 10 eq_refl)
    as (gaps & r & E1 & E2 & _ & H).
  exists gaps, r. split; [done|]. split; [done|].
  assert (gaps = [(3 * minute, 6 * minute, 4)]) as ->.
  { assert (Ok gaps = Ok [(3 * minute, 6 * minute, 4)]) as [= ->]; [|done].
    rewrite <- E1. vm_compute. reflexivity. }
  destruct H as (H1 & H2 & H3).
  - intros g ->%list_elem_of_singleton. vm_compute. discriminate.
  - split; [done|]. by rewrite H2.
Defined.
(** C5 as stated fails: a gap of 10^9 + 1 minutes is claimed by no bucket,
    so the bucket counts add up to 0 with one gap found. *)
Lemma bucket_bound_counterexample :
  ∃ r, build_gap_report (index (long_gap_series (Z.to_nat 1000000001)))
         (long_gap_series (Z.to_nat 1000000001)) 10 = Ok r
     ∧ gap_count r = 1
     ∧ minutes_missing r = 1000000001
     ∧ (∀ b, b ∈ buckets → ¬ claims b 1000000001)
     ∧ dict_sum (bucket_counts r) ≠ gap_count r
     ∧ dict_sum (bucket_minutes r) ≠ minutes_missing r.
Proof.
  destruct (long_gap_report (Z.to_nat 1000000001) 10) as (r & Er & Hc & Hb1 & Hb2 & Hm);
    [lia|].
  exists r. split; [exact Er|]. split; [exact Hc|].
  split; [rewrite Hm; lia|].
  split; [intros b; apply unclaimed; reflexivity|].
  rewrite Hb1, Hb2, Hc, Hm, dict_sum_zero. lia.
Qed.

(** * Further properties of the code *)

(** ** build_gap_report beyond aligned series *)

Lemma outer_while_runs_in_range (mm : list bool) (full_idx : list Z) (i : nat)
    (R : list (nat * nat)) :
  Runs mm i R →
  Forall (fun r => (r.2 ≤ length full_idx)%nat) R →
  ∀ fuel gaps, (length mm ≤ fuel + i)%nat →
    outer_while fuel mm full_idx i gaps = Ok (gaps ++ (gap_at full_idx <$> R)).
Proof.
  intros HR.
  induction HR as [i Hi | i R E _ IH | i j R E Hij Hrun HR IH]; intros Hin fuel gaps Hf.
  - destruct fuel; simpl; (destruct (Nat.ltb_spec i (length mm)); [lia|]);
      by rewrite app_nil_r.
  - pose proof (lookup_lt_Some _ _ _ E).
    destruct fuel; [lia|]. simpl.
    destruct (Nat.ltb_spec i (length mm)); [|lia].
    rewrite E. simpl. apply IH; [done | lia].
  - pose proof (lookup_lt_Some _ _ _ E).
    apply Forall_cons in Hin as [Hj Hin]. simpl in Hj.
    destruct fuel; [lia|]. simpl.
    destruct (Nat.ltb_spec i (length mm)); [|lia].
    rewrite E. simpl.
    destruct (inner_while_spec mm (length mm) i) as (j' & -> & Hle & Hrun'); [lia|].
    assert (j' = j) as -> by (eapply run_of_unique; eauto; lia).
    assert (j ≤ length mm)%nat.
    { destruct Hrun as [Hall _].
      specialize (Hall (j - 1)%nat ltac:(lia)). apply lookup_lt_Some in Hall. lia. }
    destruct (lookup_lt_is_Some_2 full_idx i ltac:(lia)) as [s Es].
    destruct (lookup_lt_is_Some_2 full_idx (j - 1)%nat ltac:(lia)) as [e Ee].
    rewrite bind_Ok. unfold getitem_pos. rewrite Es, Ee, !bind_Ok.
    rewrite IH by (done || lia). rewrite <- app_assoc. simpl.
    assert (gap_at full_idx (i, j) = (s, e, Z.of_nat (j - i))) as ->; [|done].
    unfold gap_at. simpl. by rewrite Es, Ee.
Qed.

Lemma outer_while_runs_out_of_range (mm : list bool) (full_idx : list Z) (i : nat)
    (R : list (nat * nat)) :
  Runs mm i R →
  Exists (fun r => (length full_idx < r.2)%nat) R →
  ∀ fuel gaps, (length mm ≤ fuel + i)%nat →
    outer_while fuel mm full_idx i gaps = Raise IndexError.
Proof.
  intros HR.
  induction HR as [i Hi | i R E _ IH | i j R E Hij Hrun HR IH]; intros Hex fuel gaps Hf.
  - by apply Exists_nil in Hex.
  - pose proof (lookup_lt_Some _ _ _ E).
    destruct fuel; [lia|]. simpl.
    destruct (Nat.ltb_spec i (length mm)); [|lia].
    rewrite E. simpl. apply IH; [done | lia].
  - pose proof (lookup_lt_Some _ _ _ E).
    destruct fuel; [lia|]. simpl.
    destruct (Nat.ltb_spec i (length mm)); [|lia].
    rewrite E. simpl.
    destruct (inner_while_spec mm (length mm) i) as (j' & -> & Hle & Hrun'); [lia|].
    assert (j' = j) as -> by (eapply run_of_unique; eauto; lia).
    assert (j ≤ length mm)%nat.
    { destruct Hrun as [Hall _].
      specialize (Hall (j - 1)%nat ltac:(lia)). apply lookup_lt_Some in Hall. lia. }
    rewrite bind_Ok. unfold getitem_pos.
    destruct (full_idx !! i) as [s|] eqn:Es; [|done]. rewrite bind_Ok.
    destruct (full_idx !! (j - 1)%nat) as [e|] eqn:Ee; [|done]. rewrite bind_Ok.
    apply Exists_cons in Hex as [Hj | Hex].
    + simpl in Hj. apply lookup_lt_Some in Ee. lia.
    + apply IH; [done | lia].
Qed.

Lemma mask_true_missing (series : list (Z * option Q)) (k : nat) :
  (isna <$> values series) !! k = Some true ↔ ∃ t, series !! k = Some (t, None).
Proof.
  unfold values. rewrite !list_lookup_fmap.
  destruct (series !! k) as [[t [v|]]|]; simpl; split; try done;
    try (by intros [t' ?]); intros _; by exists t.
Qed.

Lemma Runs_inside (mm : list bool) (i : nat) (R : list (nat * nat)) :
  Runs mm i R →
  Forall (fun r => ∀ k : nat, (r.1 ≤ k < r.2)%nat → mm !! k = Some true) R.
Proof.
  induction 1 as [i Hi | i R E _ IH | i j R E Hij [Hall _] _ IH];
    [constructor | done | by constructor].
Qed.

(** [build_gap_report] on a series without a missing value. *)
Lemma Runs_none (mm : list bool) (i : nat) (R : list (nat * nat)) :
  Runs mm i R → Forall (fun b => b = false) mm → R = [].
Proof.
  intros HR Hall. pose proof (Runs_starts _ _ _ HR) as Hs.
  destruct R as [|r R]; [done|].
  apply Forall_cons in Hs as [Hr _].
  rewrite Forall_forall in Hall.
  apply list_elem_of_lookup_2, Hall in Hr. done.
Qed.

Lemma count_true_none (mm : list bool) :
  Forall (fun b => b = false) mm → count_true mm = 0.
Proof.
  induction 1 as [|b mm -> _ IH]; [done|]. by rewrite count_true_cons, IH.
Qed.

Lemma no_missing_mask (series : list (Z * option Q)) :
  no_missing series → Forall (fun b => b = false) (isna <$> values series).
Proof.
  unfold no_missing, values. intros H. rewrite !Forall_fmap.
  eapply Forall_impl; [exact H|]. intros [t v] [x Hx]. simpl in *. by subst.
Qed.

Lemma build_gap_report_inv (full_idx : list Z) (series : list (Z * option Q))
    (top_n : Z) (r : GapReport) :
  build_gap_report full_idx series top_n = Ok r →
  ∃ gaps, find_gaps (isna <$> values series) full_idx = Ok gaps
        ∧ gap_count r = Z.of_nat (length gaps)
        ∧ minutes_missing r = count_true (isna <$> values series)
        ∧ bucket_counts r = (bucket_all gaps).1
        ∧ bucket_minutes r = (bucket_all gaps).2
        ∧ largest_gaps r = slice_to top_n (sorted_desc gaps).
Proof.
  intros E. destruct (find_gaps (isna <$> values series) full_idx) as [gaps|e] eqn:Eg.
  - destruct (build_gap_report_unfold _ _ top_n _ Eg) as (r' & Er & H).
    rewrite E in Er. injection Er as <-. by exists gaps.
  - unfold build_gap_report in E. by rewrite Eg in E.
Qed.

(** X1. [build_gap_report] returns a report when every missing position of
    the series has a label in [full_idx], and raises IndexError as soon as
    one missing position lies at or beyond the end of [full_idx]. *)
Theorem build_gap_report_index_error (full_idx : list Z) (series : list (Z * option Q))
    (top_n : Z) :
  ((∀ (k : nat) t, series !! k = Some (t, None) → (k < length full_idx)%nat) →
     ∃ r, build_gap_report full_idx series top_n = Ok r)
  ∧ (∀ (k : nat) t, series !! k = Some (t, None) → (length full_idx ≤ k)%nat →
       build_gap_report full_idx series top_n = Raise IndexError).
Proof.
  destruct (Runs_exist (isna <$> values series) 0) as [R HR].
  pose proof (Runs_inside _ _ _ HR) as Hin.
  pose proof (Runs_bounds _ _ _ HR) as Hb.
  rewrite Forall_forall in Hin, Hb.
  split.
  - intros Hall.
    assert (find_gaps (isna <$> values series) full_idx = Ok (gap_at full_idx <$> R)) as E.
    { unfold find_gaps. rewrite (outer_while_runs_in_range _ _ _ _ HR); [done| |lia].
      apply Forall_forall. intros r Hr. specialize (Hb r Hr).
      destruct (proj1 (mask_true_missing series (r.2 - 1)%nat)) as [t Ht];
        [apply (Hin r Hr); lia|].
      specialize (Hall _ _ Ht). lia. }
    destruct (build_gap_report_unfold _ _ top_n _ E) as (r & Er & _). by exists r.
  - intros k t Hk Hge.
    assert ((isna <$> values series) !! k = Some true) as Hm
      by (apply mask_true_missing; by exists t).
    apply (Runs_cover _ _ _ HR k ltac:(lia)) in Hm as (r & Hr & Hkr).
    unfold build_gap_report, find_gaps.
    rewrite (outer_while_runs_out_of_range _ _ _ _ HR); [done| |lia].
    apply Exists_exists. exists r. split; [done | lia].
Qed.

Lemma build_gap_report_index_error_witness :
  (∃ r, build_gap_report [0; minute] [(0, Some 1%Q); (minute, None); (2 * minute, Some 1%Q)] 10
        = Ok r)
  ∧ build_gap_report [0; minute] [(0, Some 1%Q); (minute, Some 1%Q); (2 * minute, None)] 10
    = Raise IndexError.
Proof.
  split.
  - apply (proj1 (build_gap_report_index_error [0; minute]
                    [(0, Some 1%Q); (minute, None); (2 * minute, Some 1%Q)] 10)).
    intros [|[|[|k]]] t Hk; simpl in *; try done; lia.
  - apply (proj2 (build_gap_report_index_error [0; minute]
                    [(0, Some 1%Q); (minute, Some 1%Q); (2 * minute, None)] 10)
             2%nat (2 * minute)); [reflexivity | simpl; lia].
Defined.

(** X2. On a series without a missing value, whatever [full_idx] and
    [top_n] are, the report has no gap: zero gaps, zero missing minutes, a
    missing percentage of 0, every bucket at 0 and no largest gap. *)
Theorem build_gap_report_nothing_missing (full_idx : list Z) (series : list (Z * option Q))
    (top_n : Z) :
  no_missing series →
  ∃ r, build_gap_report full_idx series top_n = Ok r
     ∧ gap_count r = 0
     ∧ minutes_missing r = 0
     ∧ (missing_pct r == 0)%Q
     ∧ bucket_counts r = zero_buckets
     ∧ bucket_minutes r = zero_buckets
     ∧ largest_gaps r = [].
Proof.
  intros Hno. apply no_missing_mask in Hno.
  destruct (Runs_exist (isna <$> values series) 0) as [R HR].
  pose proof (Runs_none _ _ _ HR Hno) as ->.
  assert (find_gaps (isna <$> values series) full_idx = Ok []) as E.
  { unfold find_gaps. by rewrite (outer_while_runs_in_range _ _ _ _ HR); [|constructor|lia]. }
  destruct (build_gap_report_unfold _ _ top_n _ E) as (r & Er & Hc & Hm & Hb1 & Hb2 & Hl).
  exists r. split; [done|]. split; [done|].
  rewrite count_true_none in Hm by done. split; [done|].
  split.
  - unfold build_gap_report in Er. rewrite E, bind_Ok in Er. injection Er as <-.
    cbn [missing_pct]. rewrite count_true_none by done.
    destruct (Z.of_nat (length full_idx) =? 0); [done|].
    unfold Qeq. simpl. lia.
  - split; [done|]. split; [done|]. rewrite Hl. unfold slice_to.
    destruct (0 <=? top_n); apply take_nil.
Qed.

Lemma build_gap_report_nothing_missing_witness :
  no_missing [(0, Some 5%Q); (minute, Some 7%Q)]
  ∧ ∃ r, build_gap_report [] [(0, Some 5%Q); (minute, Some 7%Q)] (-3) = Ok r
       ∧ gap_count r = 0 ∧ largest_gaps r = [].
Proof.
  assert (no_missing [(0, Some 5%Q); (minute, Some 7%Q)]) as H
    by (repeat constructor; by eexists).
  split; [done|].
  destruct (build_gap_report_nothing_missing [] [(0, Some 5%Q); (minute, Some 7%Q)] (-3) H)
    as (r & E & H1 & _ & _ & _ & _ & H2).
  by exists r.
Defined.

(** X3. The number of largest gaps reported: for [top_n >= 0] the smaller
    of [top_n] and the gap count; for a negative [top_n] the slice [:top_n]
    drops the last [-top_n] gaps, leaving [max 0 (gap_count + top_n)]. *)
Theorem largest_gaps_length (full_idx : list Z) (series : list (Z * option Q))
    (top_n : Z) (r : GapReport) :
  build_gap_report full_idx series top_n = Ok r →
  Z.of_nat (length (largest_gaps r))
  = if 0 <=? top_n then Z.min top_n (gap_count r) else Z.max 0 (gap_count r + top_n).
Proof.
  intros E. destruct (build_gap_report_inv _ _ _ _ E) as (gaps & _ & -> & _ & _ & _ & ->).
  assert (length (sorted_desc gaps) = length gaps) as Hl by (by rewrite sorted_desc_perm).
  unfold slice_to. destruct (Z.leb_spec 0 top_n); rewrite length_take, Hl; lia.
Qed.

Lemma largest_gaps_length_witness :
  ∃ r, build_gap_report (date_range 0 (9 * minute)) gappy_series (-1) = Ok r
     ∧ Z.of_nat (length (largest_gaps r)) = 0.
Proof.
  eexists. split; [vm_compute; reflexivity|].
  etrans.
  - apply (largest_gaps_length (date_range 0 (9 * minute)) gappy_series (-1)).
    vm_compute. reflexivity.
  - reflexivity.
Defined.

(** ** Gaps are maximal and lie inside the window *)

Lemma Runs_ends (mm : list bool) (i : nat) (R : list (nat * nat)) :
  Runs mm i R → Forall (fun r => mm !! r.2 ≠ Some true) R.
Proof.
  induction 1 as [i Hi | i R E _ IH | i j R E Hij [_ Hstop] _ IH];
    [constructor | done |].
  constructor; [|done]. by apply in_run_false.
Qed.

Lemma Runs_preceded (mm : list bool) (i : nat) (R : list (nat * nat)) :
  Runs mm i R →
  Forall (fun r => r.1 = i ∨ mm !! (r.1 - 1)%nat = Some false) R.
Proof.
  induction 1 as [i Hi | i R E HR IH | i j R E Hij Hrun HR IH].
  - constructor.
  - eapply Forall_impl; [exact IH|]. simpl. intros r [-> | Hr]; [|by right].
    right. by replace (S i - 1)%nat with i by lia.
  - constructor; [by left|].
    pose proof (Runs_starts _ _ _ HR) as Hs.
    rewrite Forall_forall in IH, Hs. apply Forall_forall. intros r Hr.
    destruct (IH r Hr) as [Heq | Hp]; [|by right].
    specialize (Hs r Hr). rewrite Heq in Hs.
    destruct Hrun as [_ Hstop]. apply in_run_false in Hstop. done.
Qed.

Lemma mask_false_present (series : list (Z * option Q)) (k : nat) (t : Z) (v : option Q) :
  series !! k = Some (t, v) → (isna <$> values series) !! k ≠ Some true → is_Some v.
Proof.
  intros Hk Hm. rewrite (mask_lookup _ _ _ _ Hk) in Hm.
  destruct v; [by eexists | done].
Qed.

(** X4. The gaps of an aligned series are maximal: the timeline minute
    right before a gap's start and the one right after its end, when the
    series has them, hold a value. *)
Theorem gaps_are_maximal (series : list (Z * option Q)) (start end_ : Z) :
  aligned series start end_ →
  ∃ gaps,
    find_gaps (isna <$> values series) (date_range start end_) = Ok gaps
    ∧ ∀ g t v, g ∈ gaps → (t, v) ∈ series →
        t = gap_start g - minute ∨ t = gap_end g + minute → is_Some v.
Proof.
  intros Hal. destruct (find_gaps_aligned _ _ _ Hal) as (R & HR & E).
  exists (gap_of_run start <$> R). split; [done|].
  intros g t v [r [-> Hr]]%list_elem_of_fmap [k Hk]%list_elem_of_lookup_1 Ht.
  pose proof (aligned_lookup _ _ _ _ _ _ Hal Hk) as ->.
  pose proof (Runs_bounds _ _ _ HR) as Hb.
  pose proof (Runs_ends _ _ _ HR) as He.
  pose proof (Runs_preceded _ _ _ HR) as Hp.
  rewrite Forall_forall in Hb, He, Hp.
  specialize (Hb r Hr). specialize (He r Hr). specialize (Hp r Hr).
  apply (mask_false_present series k _ v Hk).
  unfold gap_start, gap_end, gap_of_run, minute in Ht. simpl in Ht.
  destruct Ht as [Ht | Ht].
  - assert (r.1 = S k) as Hk' by lia.
    destruct Hp as [Hp | Hp]; [lia|].
    rewrite Hk' in Hp. replace (S k - 1)%nat with k in Hp by lia. congruence.
  - assert (k = r.2) as -> by lia. done.
Qed.

Lemma gaps_are_maximal_witness :
  aligned gappy_series 0 (9 * minute)
  ∧ ∃ gaps,
      find_gaps (isna <$> values gappy_series) (date_range 0 (9 * minute)) = Ok gaps
      ∧ ∀ g t v, g ∈ gaps → (t, v) ∈ gappy_series →
          t = gap_start g - minute ∨ t = gap_end g + minute → is_Some v.
Proof.
  split; [reflexivity|]. apply (gaps_are_maximal gappy_series 0 (9 * minute)). reflexivity.
Defined.




(** ** Every outcome of a run *)


Lemma compute_energy_outcome (h : gmap nat (list (string * list Cell))) (df : nat)
    (frame : list (string * list Cell)) (n : nat) (timecol : string)
    (powercol : option string) (fill tz : string) (top_gaps : Z) :
  h !! df = Some frame →
  wf_frame n frame →
  ((timecol ∉ columns frame)
     ∧ (compute_energy df timecol powercol fill tz top_gaps h).1 = Raise MissingTimeColumn)
  ∨ (timecol ∈ columns frame
     ∧ ∃ e, resolve_powercol_of frame timecol powercol = Raise e
          ∧ (compute_energy df timecol powercol fill tz top_gaps h).1 = Raise e)
  ∨ (timecol ∈ columns frame
     ∧ ∃ pc t p,
         resolve_powercol_of frame timecol powercol = Ok pc
         ∧ parsed_columns frame timecol pc t p
         ∧ ((forallb isna t = true
               ∧ (compute_energy df timecol powercol fill tz top_gaps h).1
                 = Raise AllTimestampsFailed)
            ∨ (forallb isna t = false
               ∧ (∀ i a b, t !! i = Some (Some a) → p !! i = Some (Some b) → False)
               ∧ (compute_energy df timecol powercol fill tz top_gaps h).1
                 = Raise NoValidRows)
            ∨ (forallb isna t = false
               ∧ ∃ rows r,
                   rows ≠ []
                   ∧ Forall (fun x => ∃ i, t !! i = Some (Some x.1)
                                         ∧ p !! i = Some (Some x.2)) rows
                   ∧ integrate (bucketize rows) pc fill top_gaps = Ok r
                   ∧ (compute_energy df timecol powercol fill tz top_gaps h).1 = Ok r))).
Proof.
  intros Hdf Hwf.
  destruct (compute_energy_pipeline h df frame timecol powercol fill tz top_gaps Hdf)
    as (h' & -> & _).
  cbn [fst].
  destruct (decide (timecol ∈ columns frame)) as [Htc|Htc]; cycle 1.
  { left. split; [done|]. unfold pipeline. by rewrite bool_decide_true. }
  right.
  pose proof (resolve_powercol_spec frame timecol powercol) as Hres.
  destruct (resolve_powercol_of frame timecol powercol) as [pc|e] eqn:Epc; cycle 1.
  { left. split; [done|]. exists e. split; [done|].
    unfold pipeline. rewrite bool_decide_false by (by intros []).
    by rewrite Epc, bind_Raise. }
  right. split; [done|].
  destruct (getitem_columns _ _ Htc) as (tcells & Et & _).
  destruct (getitem_working_copy frame (Time <$> (to_datetime <$> tcells)) pc Hres)
    as [pcells Ep].
  exists pc, (to_datetime <$> tcells), (to_numeric <$> pcells).
  split; [done|]. split; [by exists tcells, pcells|].
  destruct (pipeline_run n frame timecol powercol fill tz top_gaps pc tcells pcells
              Hwf Htc Epc Et Ep)
    as [(Hall & ->) | [(Hall & Hno & ->) | (Hall & rows & Hr & Hrows & ->)]].
  - by left.
  - right. by left.
  - right. right. split; [done|].
    destruct (integrate_bucketize rows pc fill top_gaps Hr)
      as (s & e & v1 & v2 & gr & _ & _ & _ & _ & _ & _ & _ & Ei).
    eexists rows, _. split; [done|]. split; [done|]. split; exact Ei.
Qed.










(** X9. The power column a result names is a column of the input frame:
    the requested one when a column was requested, and otherwise the column
    [detect_power_col] returns, which is not the time column. *)
Theorem result_names_resolved_column (h : gmap nat (list (string * list Cell))) (df : nat)
    (frame : list (string * list Cell)) (n : nat) (timecol : string)
    (requested : option string) (fill tz : string) (top_gaps : Z) (r : Result) :
  h !! df = Some frame →
  wf_frame n frame →
  (compute_energy df timecol requested fill tz top_gaps h).1 = Ok r →
  powercol r ∈ columns frame
  ∧ match requested with
    | Some c => powercol r = c
    | None => detect_power_col frame timecol = Ok (powercol r)
              ∧ powercol r ≠ timecol
    end.
Proof.
  intros Hdf Hwf E.
  destruct (compute_energy_outcome h df frame n timecol requested fill tz top_gaps Hdf Hwf)
    as [(_ & E') | [(_ & e & _ & E') | (_ & pc & t & p & Er & _ & Hcase)]];
    [congruence.. |].
  destruct Hcase as [(_ & E') | [(_ & _ & E') | (_ & rows & r' & Hr & _ & Ei & E')]];
    [congruence.. |].
  rewrite E in E'. injection E' as <-.
  destruct (integrate_bucketize rows pc fill top_gaps Hr)
    as (s & e & v1 & v2 & gr & _ & _ & _ & _ & _ & _ & _ & Ei').
  rewrite Ei' in Ei. injection Ei as <-. cbn [powercol].
  pose proof (resolve_powercol_spec frame timecol requested) as Hres. rewrite Er in Hres.
  split; [done|].
  destruct requested as [c|]; simpl in Er.
  - case_bool_decide; [done|]. by injection Er as ->.
  - split; [done|].
    unfold detect_power_col in Er.
    case_bool_decide; [done|].
    assert (∀ c, c ∈ filter (λ c, c ≠ timecol) (columns frame) → c ≠ timecol) as Hf
      by (intros c [? _]%list_elem_of_filter; done).
    destruct (omap _ PREFERRED_POWER_COLS) as [|c l] eqn:Eo.
    + match type of Er with context [omap ?f (filter ?P (columns frame))] =>
        destruct (omap f (filter P (columns frame))) as [|x l] eqn:Ec end; [done|].
      injection Er as <-.
      pose proof (best_candidate_elem x l) as Hb. rewrite <- Ec in Hb.
      apply list_elem_of_omap in Hb as (c & Hc & Hfc). apply Hf in Hc.
      destruct (bool_decide _); [done|]. destruct (getitem frame c); [|done].
      destruct (_ =? 0); [done|]. by injection Hfc as <-.
    + injection Er as ->.
      assert (pc ∈ pc :: l) as Hc by left. rewrite <- Eo in Hc.
      apply list_elem_of_omap in Hc as (pref & _ & Hh).
      apply head_Some_elem_of in Hh. apply list_elem_of_filter in Hh as [_ Hh].
      by apply Hf.
Qed.

Lemma result_names_resolved_column_witness :
  wf_frame 60 (csv_frame steady_rows)
  ∧ ∃ r, (compute_energy 0%nat "_time" None "locf" "UTC" 10
            (<[0%nat := csv_frame steady_rows]> ∅)).1 = Ok r
       ∧ powercol r = "watts"%string.
Proof.
  split; [repeat constructor|].
  assert (∃ r, (compute_energy 0%nat "_time" None "locf" "UTC" 10
                  (<[0%nat := csv_frame steady_rows]> ∅)).1 = Ok r) as [r E]
    by (eexists; vm_compute; reflexivity).
  exists r. split; [exact E|].
  destruct (result_names_resolved_column (<[0%nat := csv_frame steady_rows]> ∅)
              0%nat (csv_frame steady_rows) 60 "_time" None "locf" "UTC" 10 r
              ltac:(apply lookup_insert_eq) ltac:(repeat constructor) E) as (_ & Hd & _).
  assert (detect_power_col (csv_frame steady_rows) "_time" = Ok "watts"%string) as Hw
    by (vm_compute; reflexivity).
  rewrite Hw in Hd. by injection Hd as <-.
Defined.

(** ** detect_power_col *)

Lemma omap_first {A B} (f : A → option B) (l : list A) (c : B) (rest : list B) :
  omap f l = c :: rest →
  ∃ (i : nat) x, l !! i = Some x ∧ f x = Some c
               ∧ ∀ (j : nat) y, (j < i)%nat → l !! j = Some y → f y = None.
Proof.
  induction l as [|x l IH]; [done|]. simpl.
  destruct (f x) as [b|] eqn:E; simpl.
  - intros [= -> _]. exists 0%nat, x. split; [done|]. split; [done|]. intros; lia.
  - intros H. destruct (IH H) as (i & x' & Hi & Hf & Hlt).
    exists (S i), x'. split; [done|]. split; [done|].
    intros [|j] y Hj Hy; simpl in Hy; [congruence|]. apply (Hlt j); [lia | done].
Qed.


Lemma head_filter_Some {A} (P : A → Prop) `{∀ x, Decision (P x)} (l : list A) (x : A) :
  head (filter P l) = Some x → x ∈ l ∧ P x.
Proof. intros Hh%head_Some_elem_of. by apply list_elem_of_filter in Hh as [? ?]. Qed.


Lemma other_columns_spec (df : list (string * list Cell)) (timecol c : string) :
  c ∈ other_columns df timecol ↔ c ∈ columns df ∧ c ≠ timecol.
Proof. unfold other_columns. rewrite list_elem_of_filter. tauto. Qed.


Lemma omap_pointwise {A B} (f g : A → option B) (l : list A) :
  (∀ x, f x = g x) → omap f l = omap g l.
Proof.
  intros H. induction l as [|x l IH]; [done|].
  change (omap f (x :: l)) with (from_option (λ y, y :: omap f l) (omap f l) (f x)).
  change (omap g (x :: l)) with (from_option (λ y, y :: omap g l) (omap g l) (g x)).
  by rewrite H, IH.
Qed.

(** The three stages of the detection, as one case distinction. *)
Lemma detect_power_col_cases (df : list (string * list Cell)) (timecol : string) :
  (other_columns df timecol = [] ∧ detect_power_col df timecol = Raise NoOtherColumns)
  ∨ (other_columns df timecol ≠ []
     ∧ ∃ c rest,
         omap (fun pref => head (filter (fun c => lower c = pref) (other_columns df timecol)))
           PREFERRED_POWER_COLS = c :: rest
         ∧ detect_power_col df timecol = Ok c)
  ∨ (other_columns df timecol ≠ []
     ∧ omap (fun pref => head (filter (fun c => lower c = pref) (other_columns df timecol)))
         PREFERRED_POWER_COLS = []
     ∧ match omap (fun c =>
                     if bool_decide (lower c ∈ EXCLUDE_COLS) then None
                     else if numeric_count df c =? 0 then None
                          else Some (numeric_count df c, c)) (other_columns df timecol) with
       | [] => detect_power_col df timecol = Raise AutoDetectFailed
       | x :: l => detect_power_col df timecol = Ok (best_candidate x l).2
       end).
Proof.
  unfold detect_power_col. fold (other_columns df timecol).
  case_bool_decide as Hnil; [by left|]. right.
  destruct (omap _ PREFERRED_POWER_COLS) as [|c rest] eqn:E.
  - right. split; [done|]. split; [done|].
    rewrite (omap_pointwise
               (fun c => if bool_decide (lower c ∈ EXCLUDE_COLS) then None
                         else if numeric_count df c =? 0 then None
                              else Some (numeric_count df c, c))
               (fun c => if bool_decide (lower c ∈ EXCLUDE_COLS) then None
                         else match getitem df c with
                              | Ok cells =>
                                  let non_na :=
                                    Z.of_nat (length (filter (fun x => isna (to_numeric x) = false) cells)) in
                                  if non_na =? 0 then None else Some (non_na, c)
                              | Raise _ => None
                              end)).
    + by destruct (omap _ (other_columns df timecol)).
    + intros x. case_bool_decide; [done|]. unfold numeric_count.
      by destruct (getitem df x).
  - left. split; [done|]. by exists c, rest.
Qed.

Lemma preferred_head (df : list (string * list Cell)) (timecol pref c : string) :
  head (filter (fun c => lower c = pref) (other_columns df timecol)) = Some c →
  c ∈ columns df ∧ c ≠ timecol ∧ lower c = pref.
Proof.
  intros [Hin Hl]%head_filter_Some. apply other_columns_spec in Hin. tauto.
Qed.

(** X10. A column [detect_power_col] returns is a column of the frame and
    is not the time column. *)
Theorem detect_power_col_other_column (df : list (string * list Cell)) (timecol c : string) :
  detect_power_col df timecol = Ok c → c ∈ columns df ∧ c ≠ timecol.
Proof.
  intros E.
  destruct (detect_power_col_cases df timecol)
    as [(_ & E') | [(_ & c' & rest & Ho & E') | (_ & _ & Hm)]].
  - congruence.
  - rewrite E in E'. injection E' as <-.
    apply omap_first in Ho as (i & pref & _ & Hh & _).
    apply preferred_head in Hh. tauto.
  - destruct (omap _ (other_columns df timecol)) as [|x l] eqn:Ec; [congruence|].
    rewrite E in Hm. injection Hm as ->.
    pose proof (best_candidate_elem x l) as Hb. rewrite <- Ec in Hb.
    apply list_elem_of_omap in Hb as (d & Hd & Hf).
    apply other_columns_spec in Hd.
    case_bool_decide; [done|]. destruct (_ =? 0); [done|].
    injection Hf as <-. done.
Qed.

Lemma detect_power_col_other_column_witness :
  detect_power_col (csv_frame steady_rows) "_time" = Ok "watts"%string
  ∧ "watts"%string ∈ columns (csv_frame steady_rows)
  ∧ "watts"%string ≠ "_time"%string.
Proof.
  assert (detect_power_col (csv_frame steady_rows) "_time" = Ok "watts"%string) as E
    by (vm_compute; reflexivity).
  split; [exact E|].
  exact (detect_power_col_other_column (csv_frame steady_rows) "_time" "watts" E).
Defined.







(** ** What the fill policies put into a gap *)

Lemma missing_upto_tail (p : Z * option Q) (s : list (Z * option Q)) (b : nat) :
  missing_upto (p :: s) (S b) → missing_upto s b.
Proof. intros H k Hk. apply (H (S k)). lia. Qed.

Lemma ffill_from_leading (last : option Q) (s : list (Z * option Q)) (i : nat) (t : Z) :
  missing_upto s (S i) → s !! i = Some (t, None) →
  ffill_from last s !! i = Some (t, last).
Proof.
  revert i. induction s as [|[t0 v0] s IH]; intros i Hm Hi; [done|].
  destruct (Hm 0%nat ltac:(lia)) as [t0' [= -> ->]].
  destruct i as [|i]; simpl in *.
  - by injection Hi as ->.
  - apply IH; [|done]. by eapply missing_upto_tail.
Qed.

Lemma ffill_from_carry (last : option Q) (s : list (Z * option Q)) (j i : nat)
    (tj ti : Z) (v : Q) (x : option Q) :
  s !! j = Some (tj, Some v) → (j ≤ i)%nat → missing_between s j (S i) →
  s !! i = Some (ti, x) →
  ffill_from last s !! i = Some (ti, Some v).
Proof.
  revert last j i. induction s as [|[t0 v0] s IH]; intros last j i Hj Hji Hm Hi; [done|].
  destruct j as [|j]; simpl in Hj.
  - injection Hj as -> ->. destruct i as [|i]; simpl in *.
    + by injection Hi as -> _.
    + assert (missing_upto s (S i)) as Hm'.
      { intros k Hk. apply (Hm (S k)). lia. }
      destruct (Hm' i ltac:(lia)) as [t' Ht']. rewrite Hi in Ht'. injection Ht' as <- ->.
      by apply ffill_from_leading.
  - destruct i as [|i]; [lia|]. simpl in *.
    apply (IH _ j); [done | lia | | done].
    intros k Hk. apply (Hm (S k)). lia.
Qed.

Lemma next_valid_lookup (s : list (Z * option Q)) (b : nat) (tb : Z) (vb : Q) :
  missing_upto s b → s !! b = Some (tb, Some vb) → next_valid s = Some (tb, vb).
Proof.
  revert b. induction s as [|[t0 v0] s IH]; intros b Hm Hb; [done|].
  destruct b as [|b]; simpl in *.
  - by injection Hb as -> ->.
  - destruct (Hm 0%nat ltac:(lia)) as [t0' [= -> ->]].
    apply (IH b); [|done]. by eapply missing_upto_tail.
Qed.

Lemma interpolate_from_leading (s : list (Z * option Q)) (i b : nat)
    (ta tb ti : Z) (va vb : Q) :
  missing_upto s b → (i < b)%nat → s !! b = Some (tb, Some vb) →
  s !! i = Some (ti, None) →
  interpolate_from (Some (ta, va)) s !! i = Some (ti, Some (on_line ta va tb vb ti)).
Proof.
  revert i b. induction s as [|[t0 v0] s IH]; intros i b Hm Hib Hb Hi; [done|].
  destruct (Hm 0%nat ltac:(lia)) as [t0' [= -> ->]].
  destruct b as [|b]; [lia|]. simpl in Hb.
  pose proof (missing_upto_tail _ _ _ Hm) as Hm'.
  destruct i as [|i]; simpl in *.
  - injection Hi as ->. by rewrite (next_valid_lookup s b tb vb).
  - apply (IH i b); [done | lia | done..].
Qed.

Lemma interpolate_from_between (prev : option (Z * Q)) (s : list (Z * option Q))
    (a i b : nat) (ta tb ti : Z) (va vb : Q) :
  s !! a = Some (ta, Some va) → s !! b = Some (tb, Some vb) →
  (a < i < b)%nat → missing_between s a b → s !! i = Some (ti, None) →
  interpolate_from prev s !! i = Some (ti, Some (on_line ta va tb vb ti)).
Proof.
  revert prev a i b. induction s as [|[t0 v0] s IH]; intros prev a i b Ha Hb Hab Hm Hi; [done|].
  destruct i as [|i]; [lia|]. destruct b as [|b]; [lia|]. simpl in Hb, Hi.
  destruct a as [|a]; simpl in Ha.
  - injection Ha as -> ->. simpl.
    apply (interpolate_from_leading s i b); [|lia|done..].
    intros k Hk. apply (Hm (S k)). lia.
  - assert (missing_between s a b) as Hm'.
    { intros k Hk. apply (Hm (S k)). lia. }
    destruct v0; simpl; apply (IH _ a i b); (done || lia).
Qed.

Lemma interpolate_from_present (prev : option (Z * Q)) (s : list (Z * option Q))
    (i : nat) (t : Z) (v : Q) :
  s !! i = Some (t, Some v) → interpolate_from prev s !! i = Some (t, Some v).
Proof.
  revert prev i. induction s as [|[t0 [v0|]] s IH]; intros prev i Hi; [done|..];
    (destruct i as [|i]; simpl in *; [done | by apply IH]).
Qed.

Lemma ffill_from_unchanged (last : option Q) (s : list (Z * option Q)) :
  no_missing s → ffill_from last s = s.
Proof.
  intros H. revert last. induction H as [|[t v] s [x Hx] _ IH]; intros last; [done|].
  simpl in Hx. subst v. simpl. by rewrite IH.
Qed.

Lemma interpolate_from_unchanged (prev : option (Z * Q)) (s : list (Z * option Q)) :
  no_missing s → interpolate_from prev s = s.
Proof.
  intros H. revert prev. induction H as [|[t v] s [x Hx] _ IH]; intros prev; [done|].
  simpl in Hx. subst v. simpl. by rewrite IH.
Qed.

Lemma dropna_series_unchanged (s : list (Z * option Q)) :
  no_missing s → dropna_series s = s.
Proof.
  induction 1 as [|[t v] s [x Hx] _ IH]; [done|].
  simpl in Hx. subst v. unfold dropna_series in *.
  rewrite filter_cons_True by done. by rewrite IH.
Qed.

(** X14. Under carry-forward every entry after a present entry, up to the
    next present one, gets the value of that present entry (and the present
    entry keeps its own). *)
Theorem locf_carries_last_value (s : list (Z * option Q)) (j i : nat)
    (tj ti : Z) (v : Q) (x : option Q) :
  s !! j = Some (tj, Some v) → (j ≤ i)%nat → missing_between s j (S i) →
  s !! i = Some (ti, x) →
  fill_series "locf" s !! i = Some (ti, Some v).
Proof.
  intros Hj Hji Hm Hi. unfold fill_series. rewrite bool_decide_true by done.
  by apply (ffill_from_carry None s j i tj ti v x).
Qed.

Lemma locf_carries_last_value_witness :
  gappy_series !! 2%nat = Some (2 * minute, Some (120 # 1)%Q)
  ∧ missing_between gappy_series 2 (S 5)
  ∧ fill_series "locf" gappy_series !! 5%nat = Some (5 * minute, Some (120 # 1)%Q).
Proof.
  assert (missing_between gappy_series 2 (S 5)) as Hm.
  { intros k Hk.
    assert (k = 3 ∨ k = 4 ∨ k = 5)%nat as [-> | [-> | ->]] by lia; eexists; reflexivity. }
  split; [reflexivity|]. split; [exact Hm|].
  apply (locf_carries_last_value gappy_series 2 5 (2 * minute) (5 * minute) (120 # 1)%Q None);
    [reflexivity | lia | exact Hm | reflexivity].
Defined.

(** X15. Under interpolation a missing entry between two present entries
    gets the value on the straight line through them, taken over the index;
    on an aligned series that is the line over positions. *)
Theorem interp_fills_on_the_line (s : list (Z * option Q)) (a i b : nat)
    (ta tb ti : Z) (va vb : Q) :
  s !! a = Some (ta, Some va) → s !! b = Some (tb, Some vb) →
  (a < i < b)%nat → missing_between s a b → s !! i = Some (ti, None) →
  fill_series "interp" s !! i = Some (ti, Some (on_line ta va tb vb ti))
  ∧ (∀ start end_, aligned s start end_ →
       (on_line ta va tb vb ti
        == va + (vb - va) * (inject_Z (Z.of_nat i - Z.of_nat a)
                             / inject_Z (Z.of_nat b - Z.of_nat a)))%Q).
Proof.
  intros Ha Hb Hab Hm Hi. split.
  - unfold fill_series. rewrite bool_decide_false, bool_decide_true by done.
    unfold ffill.
    apply (ffill_from_carry None _ i i ti ti _ (Some (on_line ta va tb vb ti)));
      [|lia| intros k Hk; lia |];
      by apply (interpolate_from_between None s a i b).
  - intros start end_ Hal.
    rewrite (aligned_lookup _ _ _ _ _ _ Hal Ha), (aligned_lookup _ _ _ _ _ _ Hal Hb),
      (aligned_lookup _ _ _ _ _ _ Hal Hi).
    unfold on_line.
    replace (start + Z.of_nat i * minute - (start + Z.of_nat a * minute))
      with ((Z.of_nat i - Z.of_nat a) * minute) by lia.
    replace (start + Z.of_nat b * minute - (start + Z.of_nat a * minute))
      with ((Z.of_nat b - Z.of_nat a) * minute) by lia.
    rewrite !inject_Z_mult.
    assert (¬ (inject_Z minute == 0)%Q) as Hmin by done.
    assert (¬ (inject_Z (Z.of_nat b - Z.of_nat a) == 0)%Q) as Hba.
    { unfold Qeq. simpl. lia. }
    field. split; done.
Qed.

Lemma interp_fills_on_the_line_witness :
  missing_between gappy_series 2 7
  ∧ fill_series "interp" gappy_series !! 4%nat
    = Some (4 * minute,
            Some (on_line (2 * minute) (120 # 1) (7 * minute) (120 # 1) (4 * minute))).
Proof.
  assert (missing_between gappy_series 2 7) as Hm.
  { intros k Hk.
    assert (k = 3 ∨ k = 4 ∨ k = 5 ∨ k = 6)%nat as [-> | [-> | [-> | ->]]] by lia;
      eexists; reflexivity. }
  split; [exact Hm|].
  apply (interp_fills_on_the_line gappy_series 2 4 7 (2 * minute) (7 * minute) (4 * minute)
           (120 # 1)%Q (120 # 1)%Q); [reflexivity | reflexivity | lia | exact Hm | reflexivity].
Defined.

(** X16. On a series without a missing value every fill policy returns the
    series unchanged. *)
Theorem fill_without_gaps_is_identity (s : list (Z * option Q)) (fill : string) :
  no_missing s → fill_series fill s = s.
Proof.
  intros Hs. unfold fill_series, ffill, interpolate_time.
  case_bool_decide; [by apply ffill_from_unchanged|].
  case_bool_decide; [|by apply dropna_series_unchanged].
  rewrite interpolate_from_unchanged by done. by apply ffill_from_unchanged.
Qed.

Lemma fill_without_gaps_is_identity_witness :
  no_missing [(0, Some 5%Q); (minute, Some 7%Q)]
  ∧ fill_series "interp" [(0, Some 5%Q); (minute, Some 7%Q)]
    = [(0, Some 5%Q); (minute, Some 7%Q)].
Proof.
  assert (no_missing [(0, Some 5%Q); (minute, Some 7%Q)]) as H
    by (repeat constructor; by eexists).
  split; [exact H|]. exact (fill_without_gaps_is_identity _ "interp" H).
Defined.

(** ** The bucketizer *)

Lemma bucket_readings_snoc (k : Z) (seen : list (Z * Q)) (x : Z * Q) :
  bucket_readings k (seen ++ [x])
  = bucket_readings k seen ++ (if decide (floor_min x.1 = k) then [x.2] else []).
Proof.
  unfold bucket_readings. rewrite filter_app, fmap_app. f_equal.
  rewrite filter_cons, filter_nil. by destruct (decide (floor_min x.1 = k)).
Qed.

Lemma bucket_readings_absent (k : Z) (seen : list (Z * Q)) :
  (¬ ∃ x, x ∈ seen ∧ floor_min x.1 = k) → bucket_readings k seen = [].
Proof.
  intros Hno. unfold bucket_readings.
  destruct (filter _ seen) as [|y l] eqn:E; [done|].
  assert (y ∈ filter (λ x : Z * Q, floor_min x.1 = k) seen) as Hy by (rewrite E; left).
  apply list_elem_of_filter in Hy as [Hk Hy]. destruct Hno. by exists y.
Qed.

Lemma group_insert_keys (k : Z) (v : option Q) (gs : list (Z * list (option Q))) (k' : Z) :
  k' ∈ (group_insert k v gs).*1 ↔ k' = k ∨ k' ∈ gs.*1.
Proof.
  induction gs as [|[k0 vs] gs IH]; simpl.
  - rewrite list_elem_of_singleton, elem_of_nil. tauto.
  - destruct (Z.ltb_spec k k0); [|destruct (Z.eqb_spec k k0)].
    + rewrite fmap_cons. simpl. rewrite !elem_of_cons. tauto.
    + rewrite !fmap_cons. simpl. rewrite !elem_of_cons. subst. tauto.
    + rewrite !fmap_cons. simpl. rewrite !elem_of_cons, IH. tauto.
Qed.

Lemma group_insert_sorted (k : Z) (v : option Q) (gs : list (Z * list (option Q))) :
  StronglySorted Z.lt gs.*1 → StronglySorted Z.lt (group_insert k v gs).*1.
Proof.
  induction gs as [|[k0 vs] gs IH]; simpl; intros Hs.
  - repeat constructor.
  - apply StronglySorted_inv in Hs as [Hs Hall].
    destruct (Z.ltb_spec k k0); [|destruct (Z.eqb_spec k k0)].
    + rewrite fmap_cons. constructor; [by constructor|].
      constructor; [done|]. simpl. eapply Forall_impl; [exact Hall|]. simpl. intros; lia.
    + rewrite fmap_cons. by constructor.
    + rewrite fmap_cons. constructor; [by apply IH|].
      apply Forall_forall. intros k' Hk'. apply group_insert_keys in Hk' as [-> | Hk'].
      * simpl. lia.
      * rewrite Forall_forall in Hall. by apply Hall.
Qed.

Lemma group_insert_groups (k : Z) (v : option Q) (gs : list (Z * list (option Q)))
    (k' : Z) (vs' : list (option Q)) :
  StronglySorted Z.lt gs.*1 →
  (k', vs') ∈ group_insert k v gs →
  (k' ≠ k ∧ (k', vs') ∈ gs)
  ∨ (k' = k ∧ ((k ∉ gs.*1) ∧ vs' = [v] ∨ ∃ vs, (k, vs) ∈ gs ∧ vs' = vs ++ [v])).
Proof.
  induction gs as [|[k0 vs] gs IH]; simpl; intros Hs Hin.
  - apply list_elem_of_singleton in Hin as [= -> ->]. right. split; [done|]. left.
    split; [apply not_elem_of_nil | done].
  - apply StronglySorted_inv in Hs as [Hs Hall]. rewrite Forall_forall in Hall.
    destruct (Z.ltb_spec k k0); [|destruct (Z.eqb_spec k k0)].
    + apply elem_of_cons in Hin as [[= -> ->] | Hin].
      * right. split; [done|]. left. split; [|done].
        rewrite ?fmap_cons; simpl. intros [-> | Hk]%elem_of_cons; [lia|].
        specialize (Hall _ Hk). simpl in Hall. lia.
      * left. split; [|done].
        assert (k' ∈ ((k0, vs) :: gs).*1) as Hk'
          by (apply list_elem_of_fmap; by exists (k', vs')).
        rewrite ?fmap_cons in Hk'; simpl in Hk'.
        apply elem_of_cons in Hk' as [-> | Hk']; [lia|]. specialize (Hall _ Hk'). lia.
    + subst k0. apply elem_of_cons in Hin as [[= -> ->] | Hin].
      * right. split; [done|]. right. exists vs. split; [left | done].
      * left. split; [|by right].
        assert (k' ∈ gs.*1) as Hk' by (apply list_elem_of_fmap; by exists (k', vs')).
        specialize (Hall _ Hk'). lia.
    + apply elem_of_cons in Hin as [[= -> ->] | Hin].
      * left. split; [lia | left].
      * destruct (IH Hs Hin) as [[Hne Hg] | [-> Hcase]].
        -- left. split; [done | by right].
        -- right. split; [done|]. destruct Hcase as [[Hno ->] | (vs0 & Hg & ->)].
           ++ left. split; [|done]. rewrite ?fmap_cons; simpl.
              intros [? | ?]%elem_of_cons; [lia | done].
           ++ right. exists vs0. split; [by right | done].
Qed.

Lemma groups_of_step (gs : list (Z * list (option Q))) (seen : list (Z * Q)) (x : Z * Q) :
  groups_of gs seen →
  groups_of (group_insert (floor_min x.1) (Some x.2) gs) (seen ++ [x]).
Proof.
  intros (Hs & Hk & Hg). split; [by apply group_insert_sorted|]. split.
  - intros k. rewrite group_insert_keys, Hk. split.
    + intros [-> | (y & Hy & Hyk)].
      * exists x. split; [apply elem_of_app; right; left | done].
      * exists y. split; [apply elem_of_app; by left | done].
    + intros (y & [Hy | ->%list_elem_of_singleton]%elem_of_app & Hyk); [right; eauto | by left].
  - intros k vs Hin. rewrite bucket_readings_snoc.
    apply group_insert_groups in Hin; [|done].
    destruct Hin as [[Hne Hin] | [-> Hcase]].
    + rewrite decide_False by done. rewrite app_nil_r. by apply Hg.
    + rewrite decide_True by done. rewrite fmap_app. simpl.
      destruct Hcase as [[Hno ->] | (vs0 & Hin & ->)].
      * rewrite bucket_readings_absent; [done|]. by rewrite <- Hk.
      * by rewrite (Hg _ _ Hin).
Qed.

Lemma groupby_groups_of (rows : list (Z * Q)) :
  groups_of (groupby (minute_keys rows) (power_vals rows)) rows.
Proof.
  unfold groupby.
  assert (∀ rest gs seen, groups_of gs seen →
    groups_of
      (foldl (fun gs kv =>
                match kv.1 with
                | Some k => group_insert k kv.2 gs
                | None => gs
                end) gs (zip (minute_keys rest) (power_vals rest)))
      (seen ++ rest)) as H.
  { induction rest as [|x rest IH]; intros gs seen Hg; simpl.
    - by rewrite app_nil_r.
    - replace (seen ++ x :: rest) with ((seen ++ [x]) ++ rest) by (by rewrite <- app_assoc).
      apply IH. by apply groups_of_step. }
  apply (H rows [] []). split; [constructor|]. split.
  - intros k. split; [by intros ?%elem_of_nil|]. by intros (x & ?%elem_of_nil & _).
  - by intros k vs ?%elem_of_nil.
Qed.

Lemma index_bucketize (rows : list (Z * Q)) :
  index (bucketize rows) = (groupby (minute_keys rows) (power_vals rows)).*1.
Proof.
  unfold bucketize, groupby_mean, index. rewrite <- list_fmap_compose.
  by apply list_fmap_ext.
Qed.




Lemma StronglySorted_lt_NoDup (l : list Z) : StronglySorted Z.lt l → NoDup l.
Proof.
  induction 1 as [|k l Hs IH Hall]; constructor; [|done].
  intros Hin. rewrite Forall_forall in Hall. specialize (Hall _ Hin). lia.
Qed.

Lemma bucketize_index_elem (rows : list (Z * Q)) (k : Z) :
  k ∈ index (bucketize rows) ↔ ∃ x, x ∈ rows ∧ k = floor_min x.1.
Proof.
  rewrite index_bucketize.
  destruct (groupby_groups_of rows) as (_ & Hk & _).
  rewrite Hk. split; intros (x & Hx & Hxk); by exists x.
Qed.

(** X17. The keys of the bucketed series are strictly increasing, hence
    distinct, and are exactly the floored minutes of the rows. *)
Theorem bucketize_keys (rows : list (Z * Q)) :
  StronglySorted Z.lt (index (bucketize rows))
  ∧ NoDup (index (bucketize rows))
  ∧ ∀ k, k ∈ index (bucketize rows) ↔ ∃ x, x ∈ rows ∧ k = floor_min x.1.
Proof.
  assert (StronglySorted Z.lt (index (bucketize rows))) as Hs.
  { rewrite index_bucketize. by destruct (groupby_groups_of rows) as (Hs & _). }
  split; [exact Hs|]. split.
  - by apply StronglySorted_lt_NoDup.
  - intros k. apply bucketize_index_elem.
Qed.



(** ** Minutes and energy of a result *)












(** ** Dropping undercounts *)




